(** * ModbusServer: the protocol engine of [index.js]

    A shallow embedding of the Modbus slave implemented by the class
    [ModbusSlave] of [index.js]: the CRC-16 routine, the frame builder
    [makePDU], the frame parser [parsePDU], and the request handlers for the
    function codes 0x03 and 0x10; then the hexadecimal rendering of frames,
    the log lines and the writes of the tags file that go with a request,
    the listener over a sequence of frames, and the table [updateUI] of the
    web view builds from the bank.

    JavaScript numbers that occur in this code are integers far below 2^53,
    so they are modelled by [Z].  Reading an array past its end yields
    [undefined], and arithmetic on [undefined] yields [NaN]; both are kept
    as values because the handlers run on frames of any length. *)

From Stdlib Require Import ZArith List Lia Bool.
From Stdlib Require Ascii String.
Import ListNotations.
Import String.StringSyntax Ascii.AsciiSyntax.
Local Open Scope Z_scope.
Delimit Scope string_scope with string.
Delimit Scope char_scope with char.

(** ** JavaScript values and operators *)

Inductive value : Type :=
| Num (z : Z)
| NaN
| Undefined.

(** The outcome of running a piece of code that may throw a [TypeError]
    (reading a property of [undefined]). *)
Inductive result (A : Type) : Type :=
| Throw
| Ret (a : A).
Arguments Throw {A}.
Arguments Ret {A} a.

Definition bind {A B : Type} (r : result A) (k : A -> result B) : result B :=
  match r with
  | Throw => Throw
  | Ret a => k a
  end.

Notation "x <- r ;; k" := (bind r (fun x => k))
  (at level 61, r at next level, right associativity).

Module Js.

(** ToInt32: wrap into the signed 32-bit range; [NaN] and [undefined]
    become 0. *)
Definition wrap32 (z : Z) : Z := (z + 2 ^ 31) mod 2 ^ 32 - 2 ^ 31.

Definition to_int32 (v : value) : Z :=
  match v with
  | Num z => wrap32 z
  | NaN | Undefined => 0
  end.

(** [a ^ b], [a & b], [a | b], [a >> n], [a << n]. *)
Definition xor (a b : value) : value := Num (Z.lxor (to_int32 a) (to_int32 b)).
Definition and (a b : value) : value := Num (Z.land (to_int32 a) (to_int32 b)).
Definition or (a b : value) : value := Num (Z.lor (to_int32 a) (to_int32 b)).
Definition shr (a : value) (n : Z) : value := Num (Z.shiftr (to_int32 a) n).
Definition shl (a : value) (n : Z) : value :=
  Num (wrap32 (Z.shiftl (to_int32 a) n)).

(** [a + b], [a - b], [a * b] on numbers ([undefined] converts to [NaN]). *)
Definition arith (op : Z -> Z -> Z) (a b : value) : value :=
  match a, b with
  | Num x, Num y => Num (op x y)
  | _, _ => NaN
  end.
Definition add := arith Z.add.
Definition sub := arith Z.sub.
Definition mul := arith Z.mul.

(** [a > b]: false as soon as one side is not a number. *)
Definition gt (a b : value) : bool :=
  match a, b with
  | Num x, Num y => y <? x
  | _, _ => false
  end.

(** [a === b]. *)
Definition strict_eq (a b : value) : bool :=
  match a, b with
  | Num x, Num y => x =? y
  | Undefined, Undefined => true
  | _, _ => false
  end.

(** Truthiness of a value used as a condition. *)
Definition truthy (a : value) : bool :=
  match a with
  | Num x => negb (x =? 0)
  | NaN | Undefined => false
  end.

(** [a !== b / 2].  The quotient is the only place where the code could
    leave the integers; [x === y / 2] holds for integers exactly when
    [2 * x = y], and [b / 2] is [NaN] when [b] is not a number. *)
Definition strict_neq_half (a b : value) : bool :=
  match a, b with
  | Num x, Num y => negb (2 * x =? y)
  | _, _ => true
  end.

(** Conversion of an element stored into a [Uint8ClampedArray]:
    saturation to 0..255 ([NaN] and [undefined] are stored as 0). *)
Definition clamp8 (v : value) : Z :=
  match v with
  | Num z => Z.max 0 (Z.min 255 z)
  | NaN | Undefined => 0
  end.

(** [a[i]] for an array of numbers. *)
Definition get (a : list Z) (i : nat) : value :=
  match nth_error a i with
  | Some x => Num x
  | None => Undefined
  end.

(** [a[i]] for an array of values. *)
Definition getv (a : list value) (i : Z) : value :=
  if i <? 0 then Undefined
  else match nth_error a (Z.to_nat i) with
       | Some x => x
       | None => Undefined
       end.

(** [a[i] = v]: replaces the element, or extends the array, the skipped
    positions being holes that read as [undefined].  A negative [i] names
    no element of the array, whose elements stay as they are. *)
Fixpoint set_nat (a : list value) (i : nat) (v : value) : list value :=
  match i, a with
  | O, [] => [v]
  | O, _ :: rest => v :: rest
  | S i', [] => Undefined :: set_nat [] i' v
  | S i', x :: rest => x :: set_nat rest i' v
  end.

Definition set (a : list value) (i : Z) (v : value) : list value :=
  if i <? 0 then a else set_nat a (Z.to_nat i) v.

(** ToIntegerOrInfinity on the values that occur here. *)
Definition to_integer (v : value) : Z :=
  match v with
  | Num z => z
  | NaN | Undefined => 0
  end.

(** Relative index of [Array.prototype.slice]. *)
Definition rel_index (len i : Z) : Z :=
  if i <? 0 then Z.max (len + i) 0 else Z.min i len.

(** [a.slice(from, to)]. *)
Definition slice {A : Type} (a : list A) (from to : Z) : list A :=
  let len := Z.of_nat (length a) in
  let k := rel_index len from in
  let final := rel_index len to in
  firstn (Z.to_nat (final - k)) (skipn (Z.to_nat k) a).

End Js.

(** ** Checksum: [CRC_16] and [validateCRC_16] *)

(** One turn of the inner loop:
    [crc = crc & 0x0001 ? (crc >> 1) ^ 0xA001 : crc = crc >> 1]. *)
Definition crc_shift (crc : value) : value :=
  if Js.truthy (Js.and crc (Num 1))
  then Js.xor (Js.shr crc 1) (Num 0xA001)
  else Js.shr crc 1.

(** The body of the outer loop for one element of the message. *)
Definition crc_byte (crc m : value) : value :=
  Nat.iter 8 crc_shift (Js.xor crc m).

Definition CRC_16 (message : list value) : value :=
  fold_left crc_byte message (Num 0xFFFF).

Definition validateCRC_16 (message : list value) (crc : value) : bool :=
  Js.strict_eq (CRC_16 message) crc.

(** The checksum as the specification words it: a 16-bit running value,
    each byte XORed into its low byte, then eight conditional shifts. *)
Module CrcSpec.

Definition polynomial : Z := 0xA001.
Definition initial : Z := 0xFFFF.

Definition xor_low_byte (w b : Z) : Z :=
  (w / 256) * 256 + Z.lxor (w mod 256) b.

Definition shift_step (w : Z) : Z :=
  if Z.odd w then Z.lxor (w / 2) polynomial else w / 2.

Fixpoint compute_from (w : Z) (bytes : list Z) : Z :=
  match bytes with
  | [] => w
  | b :: rest => compute_from (Nat.iter 8 shift_step (xor_low_byte w b)) rest
  end.

Definition compute (bytes : list Z) : Z := compute_from initial bytes.

Definition validate (bytes : list Z) (expected : Z) : bool :=
  compute bytes =? expected.

End CrcSpec.

Definition is_byte (b : Z) : Prop := 0 <= b < 256.
Definition is_word (w : Z) : Prop := 0 <= w < 65536.

(** ** Frame builder: [makePDU] *)

(** An argument of [makePDU]: the pair [[value, width]]. *)
Definition field : Type := (value * Z)%type.

(** What one argument pushes onto [untypedArray]: the value itself when the
    width is 1, its high and low bytes when the width is 2, nothing for any
    other width. *)
Definition push_field (arg : field) : list value :=
  (if snd arg =? 1 then [fst arg] else []) ++
  (if snd arg =? 2
   then [Js.shr (fst arg) 8; Js.and (fst arg) (Num 255)]
   else []).

Definition makePDU (slaveId functionId : value) (args : list field) : list Z :=
  let untypedArray := slaveId :: functionId :: flat_map push_field args in
  let data := map Js.clamp8 untypedArray in
  let crc := CRC_16 (map Num data) in
  map Js.clamp8 (untypedArray ++ [Js.and crc (Num 255); Js.shr crc 8]).

(** ** Frame parser: [parsePDU] *)

(** An element of the array given to [parsePDU]: the pair [[byte, role]],
    the role being 0 for a one-byte value, 1 for the high byte and 2 for the
    low byte of a two-byte value. *)
Definition cell : Type := (value * Z)%type.

Record pdu : Type := mkPdu {
  slaveId : value;
  functionId : value;
  data : list value
}.

(** [PDU[i]] followed by a property read: throws when [PDU[i]] is
    [undefined]. *)
Definition cell_at (PDU : list cell) (i : Z) : result cell :=
  if i <? 0 then Throw
  else match nth_error PDU (Z.to_nat i) with
       | Some c => Ret c
       | None => Throw
       end.

(** The loop [for (let i in data)]: at index [i] the cell [data[i]] is the
    head of the remaining list and [data[i + 1]] the head of its tail.  A
    high byte in last position reads [data[i + 1][0]] on [undefined]. *)
Fixpoint parse_fields (data : list cell) : result (list value) :=
  match data with
  | [] => Ret []
  | c :: rest =>
      let one := if snd c =? 0 then [fst c] else [] in
      high <- (if snd c =? 1
               then match rest with
                    | [] => Throw
                    | next :: _ => Ret [Js.add (Js.shl (fst c) 8) (fst next)]
                    end
               else Ret []) ;;
      more <- parse_fields rest ;;
      Ret (one ++ high ++ more)
  end.

(** [null] is [None]. *)
Definition parsePDU (PDU : list cell) : result (option pdu) :=
  let len := Z.of_nat (length PDU) in
  c0 <- cell_at PDU 0 ;;
  c1 <- cell_at PDU 1 ;;
  let validatablePart := map fst (Js.slice PDU 0 (len - 2)) in
  let data := Js.slice PDU 2 (len - 2) in
  hi <- cell_at PDU (len - 1) ;;
  lo <- cell_at PDU (len - 2) ;;
  let crc := Js.add (Js.shl (fst hi) 8) (fst lo) in
  fields <- parse_fields data ;;
  Ret (if validateCRC_16 validatablePart crc
       then Some (mkPdu (fst c0) (fst c1) fields)
       else None).

(** The roles the handlers give to the bytes of a frame, for a frame made
    of the two header bytes, fields of the given widths and the two
    checksum bytes (labelled 1 and 2, as [handle0x03Request] does). *)
Definition layout_roles (widths : list Z) : list Z :=
  flat_map (fun w => if w =? 1 then [0] else if w =? 2 then [1; 2] else [])
           widths.

Definition annotate (widths : list Z) (frame : list Z) : list cell :=
  combine (map Num frame) ([0; 0] ++ layout_roles widths ++ [1; 2]).

(** ** Request handlers *)

(** The register bank [this.tags] after a request and the bytes written
    back to the socket. *)
Definition reply : Type := (list value * list Z)%type.

Definition makeError (request : list Z) (errcode : Z) : list Z :=
  makePDU (Js.get request 0)
          (Js.or (Js.get request 1) (Num 128))
          [(Num errcode, 1)].

(** [data.data[0] > 999 || (data.data[0] + data.data[1] - 1) > 999]. *)
Definition out_of_range (d : list value) : bool :=
  Js.gt (Js.getv d 0) (Num 999)
  || Js.gt (Js.sub (Js.add (Js.getv d 0) (Js.getv d 1)) (Num 1)) (Num 999).

Definition refactor0x03 (request : list Z) : list cell :=
  [ (Js.get request 0, 0); (Js.get request 1, 0);
    (Js.get request 2, 1); (Js.get request 3, 2);
    (Js.get request 4, 1); (Js.get request 5, 2);
    (Js.get request 6, 1); (Js.get request 7, 2) ].

(** Logging is left out: it reads the frames and writes to the console and
    the log file only. *)
Definition handle0x03Request (tags : list value) (request : list Z)
  : result reply :=
  parsed <- parsePDU (refactor0x03 request) ;;
  match parsed with
  | None => Ret (tags, makeError request 4)
  | Some d =>
      if out_of_range (data d) then Ret (tags, makeError request 2)
      else
        let start := Js.getv (data d) 0 in
        let quantity := Js.getv (data d) 1 in
        Ret (tags,
             makePDU (slaveId d) (functionId d)
               ((Js.mul quantity (Num 2), 1)
                :: map (fun x => (x, 2))
                       (Js.slice tags (Js.to_integer start)
                                 (Js.to_integer (Js.add start quantity)))))
  end.

(** [array.map((x, i) => f(x, i))], the index starting at [i]. *)
Fixpoint mapi_from {A B : Type} (f : A -> Z -> B) (i : Z) (l : list A)
  : list B :=
  match l with
  | [] => []
  | x :: rest => f x i :: mapi_from f (i + 1) rest
  end.

Definition refactor0x10 (request : list Z) : list cell :=
  [ (Js.get request 0, 0); (Js.get request 1, 0);
    (Js.get request 2, 1); (Js.get request 3, 2);
    (Js.get request 4, 1); (Js.get request 5, 2);
    (Js.get request 6, 0) ]
  ++ mapi_from (fun x i => (Num x, i mod 2 + 1)) 0
       (Js.slice request 7 (Z.of_nat (length request))).

(** The loop
    [for (let i = start; i < start + quantity; i++)
       this.tags[i] = data.data[i - start + 3]],
    [n] being the number of turns left. *)
Fixpoint write_registers (n : nat) (i start : Z) (d tags : list value)
  : list value :=
  match n with
  | O => tags
  | S n' =>
      write_registers n' (i + 1) start d
        (Js.set tags i (Js.getv d (i - start + 3)))
  end.

(** The loop runs for [i = start, ..., start + quantity - 1]; its test is
    false at once when either bound is not a number. *)
Definition store_values (d tags : list value) : list value :=
  match Js.getv d 0, Js.getv d 1 with
  | Num start, Num quantity =>
      write_registers (Z.to_nat quantity) start start d tags
  | _, _ => tags
  end.

(** [saveTags] writes the bank to the tags file and is left out, as is
    logging. *)
Definition handle0x10Request (tags : list value) (request : list Z)
  : result reply :=
  parsed <- parsePDU (refactor0x10 request) ;;
  match parsed with
  | None => Ret (tags, makeError request 4)
  | Some d =>
      if out_of_range (data d) then Ret (tags, makeError request 2)
      else if Js.strict_neq_half (Js.getv (data d) 1) (Js.getv (data d) 2)
      then Ret (tags, makeError request 3)
      else if negb (Js.strict_eq (Js.getv (data d) 1)
                      (Num (Z.of_nat (length (data d)) - 3)))
      then Ret (tags, makeError request 3)
      else
        Ret (store_values (data d) tags,
             makePDU (slaveId d) (functionId d)
               [ (Js.getv (data d) 0, 2); (Js.getv (data d) 1, 2) ])
  end.

Definition handleModbusRequest (tags : list value) (request : list Z)
  : result reply :=
  if Js.strict_eq (Js.get request 1) (Num 0x03)
  then handle0x03Request tags request
  else if Js.strict_eq (Js.get request 1) (Num 0x10)
  then handle0x10Request tags request
  else Ret (tags, makeError request 1).

(** The ['data'] listener of [startModbusServer], [id] being
    [this.config.id]: [None] when the frame is dropped, otherwise the
    outcome of the handler, whose bytes are given to [socket.write]. *)
Definition on_data (id : value) (tags : list value) (request : list Z)
  : option (result reply) :=
  if Js.strict_eq (Js.get request 0) id
  then Some (handleModbusRequest tags request)
  else None.

(** The bank [Array(1000).fill(0)] created when there is no tags file. *)
Definition default_tags : list value := repeat (Num 0) 1000.

(** A request frame: the given bytes followed by their checksum, low byte
    first. *)
Definition crc_of (bytes : list Z) : Z := Js.to_integer (CRC_16 (map Num bytes)).

Definition with_crc (bytes : list Z) : list Z :=
  bytes ++ [crc_of bytes mod 256; crc_of bytes / 256].

(** The two bytes of a 16-bit value, high byte first. *)
Definition hi_lo (w : Z) : list Z := [w / 256; w mod 256].

Definition word_bytes (ws : list Z) : list Z := flat_map hi_lo ws.

(** ** The field descriptions of the specification *)

(** A field is a one-byte literal or a two-byte word. *)
Inductive field_spec : Type :=
| Byte1 (b : Z)
| Word2 (w : Z).

(** The argument [[value, width]] that stands for a field in a call of
    [makePDU]. *)
Definition arg_of (f : field_spec) : field :=
  match f with
  | Byte1 b => (Num b, 1)
  | Word2 w => (Num w, 2)
  end.

Definition width (f : field_spec) : Z :=
  match f with
  | Byte1 _ => 1
  | Word2 _ => 2
  end.

Definition flat_value (f : field_spec) : value :=
  match f with
  | Byte1 b => Num b
  | Word2 w => Num w
  end.

Definition in_range (f : field_spec) : Prop :=
  match f with
  | Byte1 b => is_byte b
  | Word2 w => is_word w
  end.

(** The bytes a field occupies on the wire: a one-byte field verbatim, a
    two-byte field high byte first. *)
Definition emit (f : field_spec) : list Z :=
  match f with
  | Byte1 b => [b]
  | Word2 w => hi_lo w
  end.

(** The success response to a read of [quantity] registers as the
    specification gives it: the byte count [quantity * 2] on one byte, then
    the register values on two bytes each. *)
Definition read_response (unit quantity : Z) (registers : list Z) : list Z :=
  with_crc ([unit; 0x03; 2 * quantity] ++ word_bytes registers).

(** The exception response: the function code with its high bit set and
    the exception code on one byte. *)
Definition exception_response (unit function code : Z) : list Z :=
  with_crc [unit; Z.lor function 0x80; code].

(** Requests of the two supported functions. *)
Definition read_request (unit start quantity : Z) : list Z :=
  [unit; 0x03] ++ hi_lo start ++ hi_lo quantity.

Definition write_request (unit start quantity byteCount : Z)
           (payload : list Z) : list Z :=
  [unit; 0x10] ++ hi_lo start ++ hi_lo quantity ++ [byteCount] ++ payload.

(** The cells that stand for a field in the array given to [parsePDU]. *)
Definition cells_of (f : field_spec) : list cell :=
  match f with
  | Byte1 b => [(Num b, 0)]
  | Word2 w => [(Num (w / 256), 1); (Num (w mod 256), 2)]
  end.

(** ** The register bank and the answers *)

(** The bank as the program means it: 1000 registers, each a 16-bit
    value. *)
Definition register_bank (tags : list value) : Prop :=
  length tags = 1000%nat
  /\ Forall (fun v => exists w, v = Num w /\ is_word w) tags.

(** An answer to [r]: a frame built by [makePDU] from the first byte of the
    request and from its second byte, as it is or with the high bit set. *)
Definition answer_of (r resp : list Z) : Prop :=
  exists fn args,
    resp = makePDU (Js.get r 0) fn args
    /\ (fn = Js.get r 1 \/ fn = Js.or (Js.get r 1) (Num 128)).

(** ** Hexadecimal rendering: [toHexString] *)

Module Hex.

(** The digit of [toString(16)] for a value in 0..15. *)
Definition digit (d : Z) : Ascii.ascii :=
  Ascii.ascii_of_nat (Z.to_nat (if d <? 10 then 48 + d else 87 + d)).

(** The digits of a non-negative integer, the most significant first;
    [fuel] bounds their number. *)
Fixpoint digits (fuel : nat) (z : Z) (acc : String.string) : String.string :=
  match fuel with
  | O => acc
  | S fuel' =>
      let acc' := String.String (digit (z mod 16)) acc in
      if z / 16 =? 0 then acc' else digits fuel' (z / 16) acc'
  end.

(** [number.toString(16)] for an integer: a number below [2 ^ n] has at
    most [n] digits. *)
Definition toString16 (z : Z) : String.string :=
  if z <? 0
  then String.String "-"%char
         (digits (S (Z.to_nat (Z.log2 (- z)))) (- z) String.EmptyString)
  else digits (S (Z.to_nat (Z.log2 z))) z String.EmptyString.

Definition upper (c : Ascii.ascii) : Ascii.ascii :=
  let n := Z.of_nat (Ascii.nat_of_ascii c) in
  if (97 <=? n) && (n <=? 122)
  then Ascii.ascii_of_nat (Z.to_nat (n - 32))
  else c.

Fixpoint toUpperCase (s : String.string) : String.string :=
  match s with
  | String.EmptyString => String.EmptyString
  | String.String c rest => String.String (upper c) (toUpperCase rest)
  end.

Fixpoint fill (n : nat) (c : Ascii.ascii) (s : String.string) : String.string :=
  match n with
  | O => s
  | S n' => String.String c (fill n' c s)
  end.

(** [s.padStart(target, c)] for a filler of one character. *)
Definition padStart (target : nat) (c : Ascii.ascii) (s : String.string)
  : String.string :=
  fill (target - String.length s) c s.

(** [array.join(sep)]. *)
Fixpoint join (sep : String.string) (l : list String.string) : String.string :=
  match l with
  | [] => String.EmptyString
  | [s] => s
  | s :: rest => String.append s (String.append sep (join sep rest))
  end.

End Hex.

Definition toHexString (number : Z) : String.string :=
  Hex.padStart 2 "0"%char (Hex.toUpperCase (Hex.toString16 number)).

Definition Uint8ClampedArrayToHexStringArray (array : list Z)
  : list String.string :=
  map toHexString array.

(** The text [Uint8ClampedArrayToHexStringArray(frame).join(' ')] that the
    handlers put in the log. *)
Definition dump (frame : list Z) : String.string :=
  Hex.join " "%string (Uint8ClampedArrayToHexStringArray frame).

(** ** The handlers with their log lines and their writes of the tags file *)

(** What a handler does besides answering: the messages it gives to
    [this.log], which writes each of them to the console and to the log
    file behind a time stamp, and the bank [saveTags] writes to the tags
    file.  The configuration is taken to be an object with a log file path,
    as [loadConfig] makes it, so that no call of [this.log] is skipped. *)
Inductive event : Type :=
| Log (message : String.string)
| SaveTags (bank : list value).

(** [this.saveTags(tags)]: the bank [this.tags || tags] goes to the tags
    file; [this_tags] is [None] while [this.tags] is still [undefined]. *)
Definition saveTags (this_tags : option (list value)) (tags : list value)
  : event :=
  SaveTags (match this_tags with
            | Some bank => bank
            | None => tags
            end).

(** [loadTags], [file] being the array read from the tags file, [None]
    when reading or parsing it throws.  It runs in the constructor, before
    [this.tags] is set. *)
Definition loadTags (file : option (list value)) : list event * list value :=
  match file with
  | Some bank => ([], bank)
  | None =>
      ([ Log "No tags file in directory, using defaults"%string;
         saveTags None default_tags ],
       default_tags)
  end.

Definition request_line (request : list Z) : event :=
  Log (String.append "Request: "%string (dump request)).

Definition response_line (response : list Z) : event :=
  Log (String.append "Response: "%string (dump response)).

(** An exception answer: the reason, then the response. *)
Definition refuse (tags : list value) (request : list Z)
           (reason : String.string) (errcode : Z)
  : list event * result reply :=
  let errorMessage := makeError request errcode in
  ([request_line request; Log reason; response_line errorMessage],
   Ret (tags, errorMessage)).

Definition handle0x03Request_traced (tags : list value) (request : list Z)
  : list event * result reply :=
  match parsePDU (refactor0x03 request) with
  | Throw => ([request_line request], Throw)
  | Ret None => refuse tags request "CRC invalid"%string 4
  | Ret (Some d) =>
      if out_of_range (data d)
      then refuse tags request "Out of range"%string 2
      else
        let start := Js.getv (data d) 0 in
        let quantity := Js.getv (data d) 1 in
        let message :=
          makePDU (slaveId d) (functionId d)
            ((Js.mul quantity (Num 2), 1)
             :: map (fun x => (x, 2))
                    (Js.slice tags (Js.to_integer start)
                              (Js.to_integer (Js.add start quantity)))) in
        ([request_line request; response_line message], Ret (tags, message))
  end.

Definition handle0x10Request_traced (tags : list value) (request : list Z)
  : list event * result reply :=
  match parsePDU (refactor0x10 request) with
  | Throw => ([request_line request], Throw)
  | Ret None => refuse tags request "CRC invalid"%string 4
  | Ret (Some d) =>
      if out_of_range (data d)
      then refuse tags request "Out of range"%string 2
      else if Js.strict_neq_half (Js.getv (data d) 1) (Js.getv (data d) 2)
      then refuse tags request
             "The number of tags does not match the number of bytes"%string 3
      else if negb (Js.strict_eq (Js.getv (data d) 1)
                      (Num (Z.of_nat (length (data d)) - 3)))
      then refuse tags request
             "The number of tags does not match the number of values"%string 3
      else
        let tags' := store_values (data d) tags in
        let response :=
          makePDU (slaveId d) (functionId d)
            [ (Js.getv (data d) 0, 2); (Js.getv (data d) 1, 2) ] in
        ([request_line request; saveTags (Some tags') [];
          response_line response],
         Ret (tags', response))
  end.

Definition handleModbusRequest_traced (tags : list value) (request : list Z)
  : list event * result reply :=
  if Js.strict_eq (Js.get request 1) (Num 0x03)
  then handle0x03Request_traced tags request
  else if Js.strict_eq (Js.get request 1) (Num 0x10)
  then handle0x10Request_traced tags request
  else ([], Ret (tags, makeError request 1)).

(** The banks a list of events writes to the tags file, in order. *)
Definition saves (events : list event) : list (list value) :=
  flat_map (fun e => match e with
                     | SaveTags saved => [saved]
                     | Log _ => []
                     end) events.

(** ** The server over a sequence of frames *)

(** The bank in memory, the bank in the tags file ([None] while there is no
    such file) and the frames written to the socket, the latest first. *)
Record server : Type := mkServer {
  bank : list value;
  tags_file : option (list value);
  sent : list (list Z)
}.

Definition record (s : server) (e : event) : server :=
  match e with
  | Log _ => s
  | SaveTags saved => mkServer (bank s) (Some saved) (sent s)
  end.

(** One ['data'] event.  The result is [None] when the handler throws: the
    exception leaves the listener and nothing catches it. *)
Definition receive (id : value) (s : server) (request : list Z)
  : option server :=
  if Js.strict_eq (Js.get request 0) id
  then
    let (events, outcome) := handleModbusRequest_traced (bank s) request in
    let s' := fold_left record events s in
    match outcome with
    | Throw => None
    | Ret (tags', response) =>
        Some (mkServer tags' (tags_file s') (response :: sent s'))
    end
  else Some s.

(** The ['data'] events of a connection, one frame each, in order. *)
Fixpoint serve (id : value) (s : server) (requests : list (list Z))
  : option server :=
  match requests with
  | [] => Some s
  | request :: rest =>
      match receive id s request with
      | None => None
      | Some s' => serve id s' rest
      end
  end.

(** The bank and the tags file after the constructor has run [loadTags],
    [file] being what the tags file held. *)
Definition boot (file : option (list value)) : server :=
  let (events, tags) := loadTags file in
  let s := fold_left record events (mkServer [] file []) in
  mkServer tags (tags_file s) [].

(** The frames of a list that are addressed to the unit [id]. *)
Definition addressed (id : value) (requests : list (list Z))
  : list (list Z) :=
  filter (fun request => Js.strict_eq (Js.get request 0) id) requests.

(** The number a hexadecimal digit stands for. *)
Definition hex_value (c : Ascii.ascii) : Z :=
  let n := Z.of_nat (Ascii.nat_of_ascii c) in
  if (48 <=? n) && (n <=? 57) then n - 48
  else if (65 <=? n) && (n <=? 70) then n - 55
  else -1.

(** Whether a text is two hexadecimal digits that stand for [b]. *)
Definition two_digits_of (b : Z) (s : String.string) : bool :=
  match s with
  | String.String c1 (String.String c0 String.EmptyString) =>
      (0 <=? hex_value c1) && (0 <=? hex_value c0)
      && (16 * hex_value c1 + hex_value c0 =? b)
  | _ => false
  end.

(** The log lines of an answered request frame the reason, if any, between
    the request and the response; a request on which the handler throws
    leaves its request line only. *)
Definition framed (request : list Z) (events : list event)
           (outcome : result reply) : Prop :=
  match outcome with
  | Throw => events = [request_line request]
  | Ret (_, response) =>
      exists reason,
        events = request_line request :: reason ++ [response_line response]
  end.


(** ** The table of the web view: [updateUI] *)

(** The text of a value cell: a register, or a dash past the last one. *)
Inductive cell_text : Type :=
| Shown (v : value)
| Dash.

(** A row of the body: the two indices of its label
    [i[startIndex] - i[endIndex]] and its ten value cells. *)
Record table_row : Type := mkRow {
  startIndex : Z;
  endIndex : Z;
  cells : list cell_text
}.

(** [Math.ceil(n / 10)] for a length [n]. *)
Definition rowsCount (n : Z) : Z := (n + 9) / 10.

Definition value_cell (tags : list value) (index : Z) : cell_text :=
  if index <? Z.of_nat (length tags) then Shown (Js.getv tags index) else Dash.

Definition body_row (tags : list value) (row : Z) : table_row :=
  let startIndex := row * 10 in
  let endIndex := Z.min (startIndex + 9) (Z.of_nat (length tags) - 1) in
  mkRow startIndex endIndex
        (map (fun col => value_cell tags (startIndex + col))
             (map Z.of_nat (seq 0 10))).

(** The rows [updateUI] appends to the body of the table. *)
Definition updateUI (tags : list value) : list table_row :=
  map (body_row tags)
      (map Z.of_nat (seq 0 (Z.to_nat (rowsCount (Z.of_nat (length tags)))))).

Definition shown (c : cell_text) : list value :=
  match c with
  | Shown v => [v]
  | Dash => []
  end.

(** * Properties

    ** The checksum *)

Lemma wrap32_small z : - 2 ^ 31 <= z < 2 ^ 31 -> Js.wrap32 z = z.
Proof.
  intros H. unfold Js.wrap32.
  rewrite Z.mod_small by lia. lia.
Qed.

Lemma word_int32 w : is_word w -> Js.wrap32 w = w.
Proof. unfold is_word. intros H. apply wrap32_small. lia. Qed.

Lemma lxor_word a b : is_word a -> is_word b -> is_word (Z.lxor a b).
Proof.
  unfold is_word. intros [Ha1 Ha2] [Hb1 Hb2].
  split.
  - apply Z.lxor_nonneg. lia.
  - destruct (Z.eq_dec (Z.lxor a b) 0) as [->|Hne]; [lia|].
    assert (0 < Z.lxor a b) by (pose proof (proj2 (Z.lxor_nonneg a b)); lia).
    change 65536 with (2 ^ 16).
    apply Z.log2_lt_pow2; [lia|].
    eapply Z.le_lt_trans; [apply Z.log2_lxor; lia|].
    apply Z.max_lub_lt.
    + destruct (Z.eq_dec a 0) as [->|]; [simpl; lia|]. apply Z.log2_lt_pow2; lia.
    + destruct (Z.eq_dec b 0) as [->|]; [simpl; lia|]. apply Z.log2_lt_pow2; lia.
Qed.

Lemma xor_low_byte_lxor w b :
  0 <= w -> is_byte b -> CrcSpec.xor_low_byte w b = Z.lxor w b.
Proof.
  unfold is_byte, CrcSpec.xor_low_byte. intros Hw Hb.
  rewrite (Z.div_mod (Z.lxor w b) 256) by lia.
  change 256 with (2 ^ 8).
  rewrite <- !Z.shiftr_div_pow2 by lia.
  rewrite <- !Z.land_ones by lia.
  rewrite Z.shiftr_lxor.
  replace (Z.shiftr b 8) with 0.
  2:{ symmetry. rewrite Z.shiftr_div_pow2 by lia. apply Z.div_small. lia. }
  rewrite Z.lxor_0_r.
  replace (Z.land (Z.lxor w b) (Z.ones 8)) with (Z.lxor (Z.land w (Z.ones 8)) b).
  - lia.
  - apply Z.bits_inj'. intros n Hn.
    rewrite Z.lxor_spec, !Z.land_spec, Z.lxor_spec.
    destruct (Z.lt_ge_cases n 8).
    + rewrite Z.ones_spec_low by lia. rewrite !andb_true_r. reflexivity.
    + rewrite Z.ones_spec_high by lia. rewrite !andb_false_r.
      replace (Z.testbit b n) with false; [reflexivity|].
      symmetry. destruct (Z.eq_dec b 0) as [->|]; [apply Z.bits_0|].
      apply Z.bits_above_log2; [lia|].
      eapply Z.lt_le_trans; [|eassumption].
      apply Z.log2_lt_pow2; lia.
Qed.

Lemma shift_step_word w : is_word w -> is_word (CrcSpec.shift_step w).
Proof.
  intros Hw. unfold CrcSpec.shift_step.
  assert (Hh : is_word (w / 2)).
  { unfold is_word in *. split; [apply Z.div_pos; lia|].
    apply Z.div_lt_upper_bound; lia. }
  destruct (Z.odd w); [|exact Hh].
  apply lxor_word; [exact Hh|]. unfold is_word, CrcSpec.polynomial. lia.
Qed.

Lemma crc_shift_spec w :
  is_word w -> crc_shift (Num w) = Num (CrcSpec.shift_step w).
Proof.
  intros Hw. unfold crc_shift, CrcSpec.shift_step, Js.and, Js.xor, Js.shr.
  cbn [Js.to_int32 Js.truthy].
  rewrite (word_int32 w Hw).
  rewrite !wrap32_small by lia.
  change 1 with (Z.ones 1) at 1. rewrite Z.land_ones by lia.
  change (2 ^ 1) with 2.
  rewrite Z.shiftr_div_pow2 by lia. change (2 ^ 1) with 2.
  rewrite wrap32_small.
  2:{ assert (is_word (w / 2)).
      { unfold is_word in *. split; [apply Z.div_pos; lia|].
        apply Z.div_lt_upper_bound; lia. }
      unfold is_word in *. lia. }
  rewrite Zmod_odd.
  destruct (Z.odd w); reflexivity.
Qed.

Lemma iter_shift_spec n w :
  is_word w ->
  Nat.iter n crc_shift (Num w) = Num (Nat.iter n CrcSpec.shift_step w)
  /\ is_word (Nat.iter n CrcSpec.shift_step w).
Proof.
  intros Hw. induction n as [|n [IH1 IH2]]; cbn [Nat.iter nat_rect].
  - split; [reflexivity|exact Hw].
  - unfold Nat.iter in *. rewrite IH1. split.
    + apply crc_shift_spec. exact IH2.
    + apply shift_step_word. exact IH2.
Qed.

Lemma byte_word b : is_byte b -> is_word b.
Proof. unfold is_byte, is_word. lia. Qed.

Lemma crc_byte_spec w b :
  is_word w -> is_byte b ->
  crc_byte (Num w) (Num b)
  = Num (Nat.iter 8 CrcSpec.shift_step (CrcSpec.xor_low_byte w b))
  /\ is_word (Nat.iter 8 CrcSpec.shift_step (CrcSpec.xor_low_byte w b)).
Proof.
  intros Hw Hb. unfold crc_byte, Js.xor. cbn [Js.to_int32].
  rewrite (word_int32 w Hw), (word_int32 b (byte_word b Hb)).
  rewrite xor_low_byte_lxor by (unfold is_word in Hw; lia || exact Hb).
  apply iter_shift_spec. apply lxor_word; [exact Hw|apply byte_word; exact Hb].
Qed.

Lemma fold_crc_spec bytes : forall w,
  is_word w -> Forall is_byte bytes ->
  fold_left crc_byte (map Num bytes) (Num w) = Num (CrcSpec.compute_from w bytes)
  /\ is_word (CrcSpec.compute_from w bytes).
Proof.
  induction bytes as [|b rest IH]; intros w Hw Hall; cbn [map fold_left CrcSpec.compute_from].
  - split; [reflexivity|exact Hw].
  - inversion Hall as [|? ? Hb Hrest]; subst.
    destruct (crc_byte_spec w b Hw Hb) as [E Hw'].
    rewrite E. apply IH; assumption.
Qed.

Lemma CRC_16_spec bytes :
  Forall is_byte bytes ->
  CRC_16 (map Num bytes) = Num (CrcSpec.compute bytes)
  /\ is_word (CrcSpec.compute bytes).
Proof.
  intros H. apply fold_crc_spec; [|exact H].
  unfold is_word, CrcSpec.initial. lia.
Qed.

(** [validateCRC_16] is the [validate] of the specification. *)
Lemma validateCRC_16_spec bytes expected :
  Forall is_byte bytes ->
  validateCRC_16 (map Num bytes) (Num expected)
  = CrcSpec.validate bytes expected.
Proof.
  intros H. unfold validateCRC_16, CrcSpec.validate.
  destruct (CRC_16_spec bytes H) as [-> _]. reflexivity.
Qed.

(** Claim C1.  On every sequence of bytes [CRC_16] computes the CRC-16 of
    the specification: initial value 0xFFFF, each byte XORed into the low
    byte of the running value, then eight times a shift right by one,
    followed by an XOR with 0xA001 when the bit shifted out was set.  The
    result is a 16-bit value, and the checksum of 01 03 00 00 00 0A is
    0xCDC5. *)
Theorem CRC_16_refines_spec (bytes : list Z) :
  Forall is_byte bytes ->
  CRC_16 (map Num bytes) = Num (CrcSpec.compute bytes)
  /\ is_word (CrcSpec.compute bytes)
  /\ CRC_16 (map Num [0x01; 0x03; 0x00; 0x00; 0x00; 0x0A]) = Num 0xCDC5.
Proof.
  intros H. destruct (CRC_16_spec bytes H) as [E W].
  split; [exact E|]. split; [exact W|].
  vm_compute. reflexivity.
Qed.

(** ** The frame builder on fields in range *)

Lemma word_hi w : is_word w -> is_byte (w / 256).
Proof.
  unfold is_word, is_byte. intros H. split; [apply Z.div_pos; lia|].
  apply Z.div_lt_upper_bound; lia.
Qed.

Lemma word_lo w : is_byte (w mod 256).
Proof. unfold is_byte. apply Z.mod_pos_bound. lia. Qed.

Lemma clamp8_byte b : is_byte b -> Js.clamp8 (Num b) = b.
Proof. unfold is_byte, Js.clamp8. lia. Qed.

Lemma shr8_word w : is_word w -> Js.shr (Num w) 8 = Num (w / 256).
Proof.
  intros H. unfold Js.shr. cbn [Js.to_int32]. rewrite word_int32 by exact H.
  rewrite Z.shiftr_div_pow2 by lia. reflexivity.
Qed.

Lemma and255_word w : is_word w -> Js.and (Num w) (Num 255) = Num (w mod 256).
Proof.
  intros H. unfold Js.and. cbn [Js.to_int32]. rewrite word_int32 by exact H.
  rewrite wrap32_small by lia.
  change 255 with (Z.ones 8). rewrite Z.land_ones by lia. reflexivity.
Qed.

Lemma hi_lo_bytes w : is_word w -> Forall is_byte (hi_lo w).
Proof.
  intros H. unfold hi_lo.
  constructor; [apply word_hi; exact H|].
  constructor; [apply word_lo|constructor].
Qed.

Lemma emit_bytes f : in_range f -> Forall is_byte (emit f).
Proof.
  destruct f; cbn; intros H; [|apply hi_lo_bytes; exact H].
  constructor; [exact H|constructor].
Qed.

Lemma flat_emit_bytes fs : Forall in_range fs -> Forall is_byte (flat_map emit fs).
Proof.
  induction 1 as [|f fs Hf _ IH]; cbn [flat_map]; [constructor|].
  apply Forall_app. split; [apply emit_bytes; exact Hf|exact IH].
Qed.

Lemma clamp_push_field f :
  in_range f -> map Js.clamp8 (push_field (arg_of f)) = emit f.
Proof.
  destruct f as [b|w]; intros H; unfold push_field; cbn -[Js.shr Js.and Js.clamp8].
  - rewrite clamp8_byte by exact H. reflexivity.
  - rewrite shr8_word, and255_word by exact H.
    rewrite !clamp8_byte by (apply word_hi, H || apply word_lo). reflexivity.
Qed.

Lemma clamp_fields fs :
  Forall in_range fs ->
  map Js.clamp8 (flat_map push_field (map arg_of fs)) = flat_map emit fs.
Proof.
  induction 1 as [|f fs Hf _ IH]; cbn [map flat_map]; [reflexivity|].
  rewrite map_app, clamp_push_field, IH by exact Hf. reflexivity.
Qed.

Lemma crc_of_word bytes :
  Forall is_byte bytes ->
  CRC_16 (map Num bytes) = Num (crc_of bytes) /\ is_word (crc_of bytes).
Proof.
  intros H. unfold crc_of. destruct (CRC_16_spec bytes H) as [-> W].
  split; [reflexivity|exact W].
Qed.

Lemma makePDU_bytes u f args body :
  map Js.clamp8 (u :: f :: flat_map push_field args) = body ->
  Forall is_byte body ->
  makePDU u f args = with_crc body.
Proof.
  intros E Hb. unfold makePDU, with_crc. rewrite map_app, E.
  destruct (crc_of_word body Hb) as [-> W].
  cbn [map]. rewrite shr8_word, and255_word by exact W.
  rewrite !clamp8_byte by (apply word_hi, W || apply word_lo). reflexivity.
Qed.

Lemma makePDU_encodes u f fs :
  is_byte u -> is_byte f -> Forall in_range fs ->
  makePDU (Num u) (Num f) (map arg_of fs) = with_crc (u :: f :: flat_map emit fs).
Proof.
  intros Hu Hf Hfs. apply makePDU_bytes.
  - cbn [map]. rewrite !clamp8_byte by assumption.
    rewrite clamp_fields by exact Hfs. reflexivity.
  - constructor; [exact Hu|]. constructor; [exact Hf|].
    apply flat_emit_bytes. exact Hfs.
Qed.

(** ** Lists, slices and array reads *)

Lemma firstn_exact {A} (l1 l2 : list A) : firstn (length l1) (l1 ++ l2) = l1.
Proof. induction l1 as [|x l1 IH]; cbn; [destruct l2|rewrite IH]; reflexivity. Qed.

Lemma skipn_exact {A} (l1 l2 : list A) : skipn (length l1) (l1 ++ l2) = l2.
Proof. induction l1 as [|x l1 IH]; cbn; [reflexivity|exact IH]. Qed.

Lemma slice_middle {A} (pre mid post : list A) :
  Js.slice (pre ++ mid ++ post)
           (Z.of_nat (length pre)) (Z.of_nat (length pre + length mid)) = mid.
Proof.
  unfold Js.slice, Js.rel_index. rewrite !length_app.
  destruct (Z.ltb_spec (Z.of_nat (length pre)) 0); [lia|].
  destruct (Z.ltb_spec (Z.of_nat (length pre + length mid)) 0); [lia|].
  rewrite !Z.min_l by lia.
  replace (Z.to_nat (Z.of_nat (length pre + length mid) - Z.of_nat (length pre)))
    with (length mid) by lia.
  rewrite Nat2Z.id, skipn_exact. apply firstn_exact.
Qed.

Lemma cell_at_app (l1 l2 : list cell) i c :
  i = Z.of_nat (length l1) ->
  cell_at (l1 ++ c :: l2) i = Ret c.
Proof.
  intros ->. unfold cell_at.
  destruct (Z.ltb_spec (Z.of_nat (length l1)) 0); [lia|].
  rewrite Nat2Z.id, nth_error_app2 by lia.
  rewrite Nat.sub_diag. reflexivity.
Qed.

Lemma parsePDU_frame c0 c1 mid lo hi :
  parsePDU (c0 :: c1 :: mid ++ [lo; hi]) =
  (fields <- parse_fields mid ;;
   Ret (if validateCRC_16 (map fst (c0 :: c1 :: mid))
             (Js.add (Js.shl (fst hi) 8) (fst lo))
        then Some (mkPdu (fst c0) (fst c1) fields)
        else None)).
Proof.
  unfold parsePDU.
  set (PDU := c0 :: c1 :: mid ++ [lo; hi]).
  assert (Hlen : Z.of_nat (length PDU) = Z.of_nat (length mid) + 4).
  { unfold PDU. cbn [length]. rewrite length_app. cbn [length]. lia. }
  rewrite Hlen.
  assert (E0 : cell_at PDU 0 = Ret c0) by reflexivity.
  assert (E1 : cell_at PDU 1 = Ret c1) by reflexivity.
  assert (Ehi : cell_at PDU (Z.of_nat (length mid) + 4 - 1) = Ret hi).
  { replace PDU with ((c0 :: c1 :: mid ++ [lo]) ++ hi :: []).
    - apply cell_at_app. cbn [length]. rewrite length_app. cbn [length]. lia.
    - unfold PDU. cbn [app]. rewrite <- app_assoc. reflexivity. }
  assert (Elo : cell_at PDU (Z.of_nat (length mid) + 4 - 2) = Ret lo).
  { replace PDU with ((c0 :: c1 :: mid) ++ lo :: [hi]) by reflexivity.
    apply cell_at_app. cbn [length]. lia. }
  assert (Ev : Js.slice PDU 0 (Z.of_nat (length mid) + 4 - 2) = c0 :: c1 :: mid).
  { replace PDU with ([] ++ (c0 :: c1 :: mid) ++ [lo; hi]) by reflexivity.
    replace (Z.of_nat (length mid) + 4 - 2)
      with (Z.of_nat (length (@nil cell) + length (c0 :: c1 :: mid)))
      by (cbn [length]; lia).
    apply (slice_middle []). }
  assert (Ed : Js.slice PDU 2 (Z.of_nat (length mid) + 4 - 2) = mid).
  { replace PDU with ([c0; c1] ++ mid ++ [lo; hi]) by reflexivity.
    replace (Z.of_nat (length mid) + 4 - 2)
      with (Z.of_nat (length [c0; c1] + length mid)) by (cbn [length]; lia).
    apply (slice_middle [c0; c1]). }
  rewrite E0, E1, Ehi, Elo, Ev, Ed. cbn [bind].
  reflexivity.
Qed.

(** ** The parser *)

Lemma join_hi_lo h l :
  is_byte h -> is_byte l ->
  Js.add (Js.shl (Num h) 8) (Num l) = Num (h * 256 + l).
Proof.
  unfold is_byte. intros Hh Hl. unfold Js.add, Js.arith, Js.shl. cbn [Js.to_int32].
  rewrite (wrap32_small h) by lia.
  rewrite Z.shiftl_mul_pow2 by lia. change (2 ^ 8) with 256.
  rewrite wrap32_small by lia. reflexivity.
Qed.

Lemma join_word w :
  is_word w -> Js.add (Js.shl (Num (w / 256)) 8) (Num (w mod 256)) = Num w.
Proof.
  intros H. rewrite join_hi_lo by (apply word_hi, H || apply word_lo).
  f_equal. pose proof (Z.div_mod w 256). lia.
Qed.

Lemma parse_fields_cells fs :
  Forall in_range fs ->
  parse_fields (flat_map cells_of fs) = Ret (map flat_value fs).
Proof.
  induction 1 as [|f fs Hf _ IH]; [reflexivity|].
  destruct f as [b|w]; cbn [flat_map cells_of app map flat_value].
  - cbn [parse_fields fst snd Z.eqb bind]. rewrite IH. reflexivity.
  - cbn [parse_fields fst snd Z.eqb Pos.eqb bind]. rewrite IH.
    cbn [bind app]. rewrite join_word by exact Hf. reflexivity.
Qed.

Lemma map_fst_cells fs :
  map fst (flat_map cells_of fs) = map Num (flat_map emit fs).
Proof.
  induction fs as [|f fs IH]; [reflexivity|].
  cbn [flat_map]. rewrite !map_app.
  f_equal; [destruct f; reflexivity|exact IH].
Qed.

Lemma combine_cells fs : forall tail roles,
  combine (map Num (flat_map emit fs ++ tail))
          (layout_roles (map width fs) ++ roles)
  = flat_map cells_of fs ++ combine (map Num tail) roles.
Proof.
  induction fs as [|f fs IH]; intros tail roles; [reflexivity|].
  destruct f as [b|w]; cbn [flat_map map width layout_roles emit hi_lo app Z.eqb Pos.eqb combine cells_of];
    unfold layout_roles in IH; rewrite <- ?app_assoc; cbn [app combine]; rewrite IH; reflexivity.
Qed.

Lemma annotate_frame u f fs :
  annotate (map width fs) (with_crc (u :: f :: flat_map emit fs))
  = (Num u, 0) :: (Num f, 0)
    :: flat_map cells_of fs
    ++ [ (Num (crc_of (u :: f :: flat_map emit fs) mod 256), 1);
         (Num (crc_of (u :: f :: flat_map emit fs) / 256), 2) ].
Proof.
  unfold annotate, with_crc. cbn [app map combine].
  rewrite combine_cells. reflexivity.
Qed.

Lemma validate_frame body c :
  Forall is_byte body -> c = crc_of body ->
  validateCRC_16 (map Num body)
    (Js.add (Js.shl (Num (c / 256)) 8) (Num (c mod 256))) = true.
Proof.
  intros Hb ->. destruct (crc_of_word body Hb) as [E W].
  unfold validateCRC_16. rewrite E, join_word by exact W.
  cbn. apply Z.eqb_refl.
Qed.

(** Claim C3.  For a unit id and a function id that are bytes and fields in
    range, parsing the frame built by [makePDU], its bytes labelled after
    the widths of the fields, succeeds and gives back the unit id, the
    function id and the values of the fields in order. *)
Theorem decode_encode_round_trip (u f : Z) (fs : list field_spec) :
  is_byte u -> is_byte f -> Forall in_range fs ->
  parsePDU (annotate (map width fs) (makePDU (Num u) (Num f) (map arg_of fs)))
  = Ret (Some (mkPdu (Num u) (Num f) (map flat_value fs))).
Proof.
  intros Hu Hf Hfs.
  rewrite makePDU_encodes by assumption.
  rewrite annotate_frame, parsePDU_frame, parse_fields_cells by exact Hfs.
  cbn [bind fst map]. rewrite map_fst_cells.
  change (Num u :: Num f :: map Num (flat_map emit fs))
    with (map Num (u :: f :: flat_map emit fs)).
  rewrite validate_frame; [reflexivity| |reflexivity].
  constructor; [exact Hu|]. constructor; [exact Hf|].
  apply flat_emit_bytes. exact Hfs.
Qed.

Lemma parse_annotated u f fs cl ch r1 r2 :
  is_byte u -> is_byte f -> Forall in_range fs -> is_byte cl -> is_byte ch ->
  parsePDU ((Num u, 0) :: (Num f, 0)
            :: flat_map cells_of fs ++ [(Num cl, r1); (Num ch, r2)])
  = Ret (if crc_of (u :: f :: flat_map emit fs) =? ch * 256 + cl
         then Some (mkPdu (Num u) (Num f) (map flat_value fs))
         else None).
Proof.
  intros Hu Hf Hfs Hcl Hch.
  rewrite parsePDU_frame, parse_fields_cells by exact Hfs.
  cbn [bind fst map]. rewrite map_fst_cells.
  change (Num u :: Num f :: map Num (flat_map emit fs))
    with (map Num (u :: f :: flat_map emit fs)).
  unfold validateCRC_16.
  assert (Hb : Forall is_byte (u :: f :: flat_map emit fs)).
  { constructor; [exact Hu|]. constructor; [exact Hf|].
    apply flat_emit_bytes. exact Hfs. }
  destruct (crc_of_word _ Hb) as [-> _].
  rewrite join_hi_lo by assumption. reflexivity.
Qed.

Lemma slice_from {A} (pre rest : list A) :
  Js.slice (pre ++ rest) (Z.of_nat (length pre))
           (Z.of_nat (length (pre ++ rest))) = rest.
Proof.
  rewrite length_app.
  rewrite <- (app_nil_r rest) at 1. apply slice_middle.
Qed.

Lemma mapi_parity (l : list Z) : forall i j,
  i mod 2 = j mod 2 ->
  mapi_from (fun x k => (Num x, k mod 2 + 1)) i l
  = mapi_from (fun x k => (Num x, k mod 2 + 1)) j l.
Proof.
  induction l as [|x l IH]; intros i j H; [reflexivity|].
  cbn [mapi_from]. rewrite H. f_equal. apply IH.
  rewrite (Z.add_mod i), (Z.add_mod j), H by lia. reflexivity.
Qed.

Lemma mapi_words ws tail : forall i,
  i mod 2 = 0 ->
  mapi_from (fun x k => (Num x, k mod 2 + 1)) i (word_bytes ws ++ tail)
  = flat_map cells_of (map Word2 ws)
    ++ mapi_from (fun x k => (Num x, k mod 2 + 1)) 0 tail.
Proof.
  induction ws as [|w ws IH]; intros i Hm.
  - apply mapi_parity. rewrite Hm. reflexivity.
  - cbn [word_bytes flat_map hi_lo app mapi_from map cells_of].
    fold (word_bytes ws).
    assert (E1 : (i + 1) mod 2 = 1).
    { rewrite Z.add_mod, Hm by lia. reflexivity. }
    assert (E2 : (i + 1 + 1) mod 2 = 0).
    { rewrite Z.add_mod, E1 by lia. reflexivity. }
    rewrite Hm, E1. cbn [Z.add Pos.add].
    rewrite (IH (i + 1 + 1)) by exact E2. reflexivity.
Qed.

Lemma words_in_range ws : Forall is_word ws -> Forall in_range (map Word2 ws).
Proof. induction 1; cbn [map]; constructor; assumption. Qed.

Lemma emit_words ws : flat_map emit (map Word2 ws) = word_bytes ws.
Proof.
  induction ws as [|w ws IH]; [reflexivity|].
  cbn [map flat_map emit word_bytes]. rewrite IH. reflexivity.
Qed.

Lemma flat_value_words ws : map flat_value (map Word2 ws) = map Num ws.
Proof. rewrite map_map. reflexivity. Qed.

(** The array built by [handle0x10Request] for a frame whose payload is a
    run of two-byte values. *)
Lemma refactor0x10_frame u f sh sl qh ql bc ws cl ch :
  refactor0x10 ([u; f; sh; sl; qh; ql; bc] ++ word_bytes ws ++ [cl; ch])
  = (Num u, 0) :: (Num f, 0)
    :: ([(Num sh, 1); (Num sl, 2); (Num qh, 1); (Num ql, 2); (Num bc, 0)]
        ++ flat_map cells_of (map Word2 ws))
    ++ [(Num cl, 1); (Num ch, 2)].
Proof.
  unfold refactor0x10.
  rewrite (slice_from [u; f; sh; sl; qh; ql; bc]).
  rewrite mapi_words by reflexivity.
  reflexivity.
Qed.

(** The arrays the two handlers build are the frames labelled after their
    layouts: start and quantity for 0x03; start, quantity, byte count and
    one two-byte value per pair of payload bytes for 0x10. *)
Lemma refactor0x03_annotate b0 b1 b2 b3 b4 b5 b6 b7 :
  refactor0x03 [b0; b1; b2; b3; b4; b5; b6; b7]
  = annotate [2; 2] [b0; b1; b2; b3; b4; b5; b6; b7].
Proof. reflexivity. Qed.

Lemma refactor0x10_annotate u f sh sl qh ql bc ws cl ch :
  refactor0x10 ([u; f; sh; sl; qh; ql; bc] ++ word_bytes ws ++ [cl; ch])
  = annotate (2 :: 2 :: 1 :: map width (map Word2 ws))
             ([u; f; sh; sl; qh; ql; bc] ++ word_bytes ws ++ [cl; ch]).
Proof.
  rewrite refactor0x10_frame. unfold annotate.
  cbn [app map combine layout_roles flat_map Z.eqb Pos.eqb].
  repeat f_equal.
  rewrite <- emit_words.
  exact (eq_sym (combine_cells (map Word2 ws) [cl; ch] [1; 2])).
Qed.

(** ** The handlers on well-formed frames *)

Lemma lor_byte a b : is_byte a -> is_byte b -> is_byte (Z.lor a b).
Proof.
  unfold is_byte. intros [Ha1 Ha2] [Hb1 Hb2].
  assert (H0 : 0 <= Z.lor a b) by (apply Z.lor_nonneg; lia).
  split; [exact H0|].
  destruct (Z.eq_dec (Z.lor a b) 0) as [->|Hne]; [lia|].
  change 256 with (2 ^ 8).
  apply Z.log2_lt_pow2; [lia|].
  rewrite Z.log2_lor by lia.
  apply Z.max_lub_lt.
  - destruct (Z.eq_dec a 0) as [->|]; [simpl; lia|]. apply Z.log2_lt_pow2; lia.
  - destruct (Z.eq_dec b 0) as [->|]; [simpl; lia|]. apply Z.log2_lt_pow2; lia.
Qed.

Lemma or_byte f : is_byte f -> Js.or (Num f) (Num 128) = Num (Z.lor f 0x80).
Proof.
  unfold is_byte. intros H. unfold Js.or. cbn [Js.to_int32].
  rewrite !wrap32_small by lia. reflexivity.
Qed.

Lemma makeError_frame u f rest code :
  is_byte u -> is_byte f -> is_byte code ->
  makeError (u :: f :: rest) code = exception_response u f code.
Proof.
  intros Hu Hf Hc. unfold makeError, exception_response.
  cbn [Js.get nth_error]. rewrite or_byte by exact Hf.
  assert (Hl : is_byte (Z.lor f 0x80)).
  { apply lor_byte; [exact Hf|unfold is_byte; lia]. }
  apply (makePDU_encodes u (Z.lor f 0x80) [Byte1 code]); [exact Hu|exact Hl|].
  constructor; [exact Hc|constructor].
Qed.

Lemma getv_0 a l : Js.getv (a :: l) 0 = a.
Proof. reflexivity. Qed.
Lemma getv_1 a b l : Js.getv (a :: b :: l) 1 = b.
Proof. reflexivity. Qed.
Lemma getv_2 a b c l : Js.getv (a :: b :: c :: l) 2 = c.
Proof. reflexivity. Qed.

Lemma handle0x10_frame tags u start qty bc ws cl ch :
  is_byte u -> is_word start -> is_word qty -> is_byte bc ->
  Forall is_word ws -> is_byte cl -> is_byte ch ->
  handle0x10Request tags
    (write_request u start qty bc (word_bytes ws) ++ [cl; ch])
  = Ret
      (if crc_of (write_request u start qty bc (word_bytes ws))
          =? ch * 256 + cl
       then
         if (999 <? start) || (999 <? start + qty - 1)
         then (tags, exception_response u 0x10 2)
         else if negb (2 * qty =? bc)
         then (tags, exception_response u 0x10 3)
         else if negb (qty =? Z.of_nat (length ws))
         then (tags, exception_response u 0x10 3)
         else (store_values (Num start :: Num qty :: Num bc :: map Num ws) tags,
               with_crc ([u; 0x10] ++ hi_lo start ++ hi_lo qty))
       else (tags, exception_response u 0x10 4)).
Proof.
  intros Hu Hs Hq Hbc Hws Hcl Hch.
  assert (H16 : is_byte 0x10) by (unfold is_byte; lia).
  unfold handle0x10Request, write_request, hi_lo. cbn [app].
  pose proof (refactor0x10_frame u 0x10 (start / 256) (start mod 256)
                (qty / 256) (qty mod 256) bc ws cl ch) as E.
  cbn [app] in E |- *. rewrite E. clear E.
  change ((Num (start / 256), 1) :: (Num (start mod 256), 2)
          :: (Num (qty / 256), 1) :: (Num (qty mod 256), 2) :: (Num bc, 0)
          :: flat_map cells_of (map Word2 ws) ++ [(Num cl, 1); (Num ch, 2)])
    with (flat_map cells_of
            (Word2 start :: Word2 qty :: Byte1 bc :: map Word2 ws)
          ++ [(Num cl, 1); (Num ch, 2)]).
  rewrite parse_annotated; try assumption.
  2:{ repeat (constructor; [assumption|]). apply words_in_range. exact Hws. }
  cbn [bind flat_map emit hi_lo app]. rewrite emit_words.
  destruct (_ =? ch * 256 + cl).
  2:{ rewrite makeError_frame by (assumption || (unfold is_byte; lia)). reflexivity. }
  cbn [data slaveId functionId map flat_value].
  rewrite flat_value_words.
  unfold out_of_range. rewrite !getv_0, !getv_1, !getv_2.
  cbn [Js.add Js.sub Js.arith Js.gt].
  destruct ((999 <? start) || (999 <? start + qty - 1)).
  { rewrite makeError_frame by (assumption || (unfold is_byte; lia)). reflexivity. }
  cbn [Js.strict_neq_half].
  destruct (negb (2 * qty =? bc)).
  { rewrite makeError_frame by (assumption || (unfold is_byte; lia)). reflexivity. }
  cbn [length Js.strict_eq]. rewrite length_map.
  replace (Z.of_nat (S (S (S (length ws)))) - 3) with (Z.of_nat (length ws)) by lia.
  destruct (negb (qty =? Z.of_nat (length ws))).
  { rewrite makeError_frame by (assumption || (unfold is_byte; lia)). reflexivity. }
  f_equal. f_equal.
  apply (makePDU_encodes u 0x10 [Word2 start; Word2 qty]); try assumption.
  repeat (constructor; [assumption|]). constructor.
Qed.

Lemma handle0x03_frame tags u start qty cl ch :
  is_byte u -> is_word start -> is_word qty -> is_byte cl -> is_byte ch ->
  handle0x03Request tags (read_request u start qty ++ [cl; ch])
  = Ret
      (tags,
       if crc_of (read_request u start qty) =? ch * 256 + cl
       then
         if (999 <? start) || (999 <? start + qty - 1)
         then exception_response u 0x03 2
         else makePDU (Num u) (Num 0x03)
                ((Num (qty * 2), 1)
                 :: map (fun x => (x, 2)) (Js.slice tags start (start + qty)))
       else exception_response u 0x03 4).
Proof.
  intros Hu Hs Hq Hcl Hch.
  assert (H3 : is_byte 0x03) by (unfold is_byte; lia).
  unfold handle0x03Request, read_request, hi_lo. cbn [app].
  change (refactor0x03 _)
    with ((Num u, 0) :: (Num 0x03, 0)
          :: flat_map cells_of [Word2 start; Word2 qty]
          ++ [(Num cl, 1); (Num ch, 2)]).
  rewrite parse_annotated; try assumption.
  2:{ repeat (constructor; [assumption|]). constructor. }
  cbn [bind flat_map emit hi_lo app].
  destruct (_ =? ch * 256 + cl).
  2:{ rewrite makeError_frame by (assumption || (unfold is_byte; lia)). reflexivity. }
  cbn [data slaveId functionId map flat_value].
  unfold out_of_range. rewrite !getv_0, !getv_1.
  cbn [Js.add Js.sub Js.mul Js.arith Js.gt Js.to_integer].
  destruct ((999 <? start) || (999 <? start + qty - 1)).
  { rewrite makeError_frame by (assumption || (unfold is_byte; lia)). reflexivity. }
  reflexivity.
Qed.

Lemma Forall_firstn {A} (P : A -> Prop) n : forall l,
  Forall P l -> Forall P (firstn n l).
Proof.
  induction n as [|n IH]; intros l H; [constructor|].
  destruct H; cbn [firstn]; constructor; auto.
Qed.

Lemma Forall_skipn {A} (P : A -> Prop) n : forall l,
  Forall P l -> Forall P (skipn n l).
Proof.
  induction n as [|n IH]; intros l H; [exact H|].
  destruct H; cbn [skipn]; [constructor|auto].
Qed.

Lemma slice_map {A B} (f : A -> B) a i j :
  Js.slice (map f a) i j = map f (Js.slice a i j).
Proof.
  unfold Js.slice. rewrite length_map, skipn_map, firstn_map. reflexivity.
Qed.

Lemma slice_range {A} (a : list A) i j :
  0 <= i -> i <= j -> j <= Z.of_nat (length a) ->
  Js.slice a i j = firstn (Z.to_nat (j - i)) (skipn (Z.to_nat i) a).
Proof.
  intros Hi Hij Hj. unfold Js.slice, Js.rel_index.
  destruct (Z.ltb_spec i 0); [lia|].
  destruct (Z.ltb_spec j 0); [lia|].
  rewrite !Z.min_l by lia. reflexivity.
Qed.

(** The success response of a read on the wire, when the byte count fits
    in one byte. *)
Lemma read_success_bytes u qty (regs : list Z) :
  is_byte u -> 0 <= qty -> 2 * qty <= 255 -> Forall is_word regs ->
  makePDU (Num u) (Num 0x03)
    ((Num (qty * 2), 1) :: map (fun x => (x, 2)) (map Num regs))
  = read_response u qty regs.
Proof.
  intros Hu Hq Hbc Hregs. unfold read_response.
  replace ((Num (qty * 2), 1) :: map (fun x => (x, 2)) (map Num regs))
    with (map arg_of (Byte1 (2 * qty) :: map Word2 regs)).
  2:{ cbn [map arg_of]. rewrite !map_map. rewrite (Z.mul_comm 2 qty). reflexivity. }
  rewrite makePDU_encodes.
  - cbn [flat_map emit app]. rewrite emit_words. reflexivity.
  - exact Hu.
  - unfold is_byte. lia.
  - constructor; [unfold in_range, is_byte; lia|]. apply words_in_range, Hregs.
Qed.

(** ** The write loop *)

Lemma set_nat_at pre x post v :
  Js.set_nat (pre ++ x :: post) (length pre) v = pre ++ v :: post.
Proof.
  induction pre as [|p pre IH]; cbn [app length Js.set_nat]; [reflexivity|].
  rewrite IH. reflexivity.
Qed.

Lemma set_at pre x post v :
  Js.set (pre ++ x :: post) (Z.of_nat (length pre)) v = pre ++ v :: post.
Proof.
  unfold Js.set. destruct (Z.ltb_spec (Z.of_nat (length pre)) 0); [lia|].
  rewrite Nat2Z.id. apply set_nat_at.
Qed.

Lemma write_registers_app vs : forall i start d pre old post,
  i = Z.of_nat (length pre) -> length old = length vs ->
  (forall k, (k < length vs)%nat ->
             Js.getv d (i + Z.of_nat k - start + 3) = nth k vs Undefined) ->
  write_registers (length vs) i start d (pre ++ old ++ post)
  = pre ++ vs ++ post.
Proof.
  induction vs as [|v vs IH]; intros i start d pre old post Hi Hlen Hget.
  - destruct old; [reflexivity|discriminate].
  - destruct old as [|o old]; [discriminate|].
    cbn [length write_registers app].
    pose proof (Hget 0%nat) as H0. cbn [nth length] in H0.
    replace (i + Z.of_nat 0 - start + 3) with (i - start + 3) in H0 by lia.
    rewrite H0 by lia. subst i. rewrite set_at.
    replace (pre ++ v :: old ++ post) with ((pre ++ [v]) ++ old ++ post)
      by (rewrite <- app_assoc; reflexivity).
    rewrite IH.
    + rewrite <- app_assoc. reflexivity.
    + rewrite length_app. cbn [length]. lia.
    + cbn [length] in Hlen. lia.
    + intros k Hk. specialize (Hget (S k)). cbn [nth length] in Hget.
      rewrite <- Hget by lia. f_equal. lia.
Qed.

Lemma getv_payload a b c (vs : list value) k :
  Js.getv (a :: b :: c :: vs) (Z.of_nat k + 3) = nth k vs Undefined.
Proof.
  unfold Js.getv. destruct (Z.ltb_spec (Z.of_nat k + 3) 0) as [H|_]; [lia|].
  replace (Z.to_nat (Z.of_nat k + 3)) with (S (S (S k))) by lia.
  cbn [nth_error]. revert k. induction vs as [|v vs IH]; intros [|k]; cbn; auto.
Qed.

(** The bank after the write loop: the decoded values replace the registers
    [start .. start + quantity - 1]. *)
Lemma store_values_bank start bc ws (tags : list value) :
  0 <= start -> start + Z.of_nat (length ws) <= Z.of_nat (length tags) ->
  store_values (Num start :: Num (Z.of_nat (length ws)) :: Num bc :: map Num ws)
               tags
  = firstn (Z.to_nat start) tags ++ map Num ws
    ++ skipn (Z.to_nat start + length ws) tags.
Proof.
  intros Hs Hlen. unfold store_values. rewrite getv_0, getv_1, Nat2Z.id.
  rewrite <- (firstn_skipn (Z.to_nat start) tags) at 1.
  rewrite <- (firstn_skipn (length ws) (skipn (Z.to_nat start) tags)) at 1.
  rewrite skipn_skipn, (Nat.add_comm (length ws)).
  rewrite <- (length_map Num ws) at 1.
  apply write_registers_app.
  - rewrite length_firstn. lia.
  - rewrite length_firstn, length_skipn, length_map. lia.
  - intros k _. replace (start + Z.of_nat k - start + 3) with (Z.of_nat k + 3) by lia.
    apply getv_payload.
Qed.

Lemma getv_neg l j : j < 0 -> Js.getv l j = Undefined.
Proof. intros H. unfold Js.getv. destruct (Z.ltb_spec j 0); [reflexivity|lia]. Qed.

Lemma getv_nth l j :
  0 <= j ->
  Js.getv l j = match nth_error l (Z.to_nat j) with
                | Some x => x
                | None => Undefined
                end.
Proof. intros H. unfold Js.getv. destruct (Z.ltb_spec j 0); [lia|reflexivity]. Qed.

Lemma getv_app_l pre l j :
  j < Z.of_nat (length pre) -> Js.getv (pre ++ l) j = Js.getv pre j.
Proof.
  intros H. destruct (Z.lt_ge_cases j 0) as [Hn|Hn].
  - rewrite !getv_neg by exact Hn. reflexivity.
  - rewrite !getv_nth by lia. rewrite nth_error_app1 by lia. reflexivity.
Qed.

Lemma getv_app_r pre l j :
  Z.of_nat (length pre) <= j ->
  Js.getv (pre ++ l) j = Js.getv l (j - Z.of_nat (length pre)).
Proof.
  intros H. rewrite !getv_nth by lia. rewrite nth_error_app2 by lia.
  replace (Z.to_nat (j - Z.of_nat (length pre)))
    with (Z.to_nat j - length pre)%nat by lia.
  reflexivity.
Qed.

Lemma getv_firstn n l j :
  j < Z.of_nat n -> Js.getv (firstn n l) j = Js.getv l j.
Proof.
  intros H. destruct (Z.lt_ge_cases j 0) as [Hn|Hn].
  - rewrite !getv_neg by exact Hn. reflexivity.
  - rewrite !getv_nth by lia. rewrite nth_error_firstn.
    destruct (Nat.ltb_spec (Z.to_nat j) n); [reflexivity|lia].
Qed.

Lemma getv_skipn n l j :
  0 <= j -> Js.getv (skipn n l) j = Js.getv l (Z.of_nat n + j).
Proof.
  intros H. rewrite !getv_nth by lia. rewrite nth_error_skipn.
  replace (Z.to_nat (Z.of_nat n + j)) with (n + Z.to_nat j)%nat by lia.
  reflexivity.
Qed.

Lemma getv_numbers ws i :
  0 <= i < Z.of_nat (length ws) ->
  Js.getv (map Num ws) i = Num (nth (Z.to_nat i) ws 0).
Proof.
  intros H. rewrite getv_nth by lia. rewrite nth_error_map.
  rewrite (nth_error_nth' ws 0) by lia. reflexivity.
Qed.

Lemma crc_bytes body :
  Forall is_byte body ->
  is_byte (crc_of body mod 256) /\ is_byte (crc_of body / 256)
  /\ (crc_of body =? crc_of body / 256 * 256 + crc_of body mod 256) = true.
Proof.
  intros H. destruct (crc_of_word body H) as [_ W].
  split; [apply word_lo|]. split; [apply word_hi, W|].
  apply Z.eqb_eq. pose proof (Z.div_mod (crc_of body) 256). lia.
Qed.

Lemma write_request_bytes u start qty bc ws :
  is_byte u -> is_word start -> is_word qty -> is_byte bc -> Forall is_word ws ->
  Forall is_byte (write_request u start qty bc (word_bytes ws)).
Proof.
  intros Hu Hs Hq Hbc Hws.
  change (write_request u start qty bc (word_bytes ws))
    with ([u; 0x10] ++ hi_lo start ++ hi_lo qty ++ [bc] ++ word_bytes ws).
  repeat (apply Forall_app; split); try (apply hi_lo_bytes; assumption).
  - constructor; [exact Hu|]. constructor; [unfold is_byte; lia|constructor].
  - constructor; [exact Hbc|constructor].
  - rewrite <- emit_words. apply flat_emit_bytes, words_in_range, Hws.
Qed.

Lemma read_request_bytes u start qty :
  is_byte u -> is_word start -> is_word qty ->
  Forall is_byte (read_request u start qty).
Proof.
  intros Hu Hs Hq. unfold read_request.
  repeat (apply Forall_app; split); try (apply hi_lo_bytes; assumption).
  constructor; [exact Hu|]. constructor; [unfold is_byte; lia|constructor].
Qed.

(** Claim C5.  A 0x10 request with a valid checksum, an address range
    within 0..999, a byte count equal to twice the quantity and as many
    values as the quantity stores value [i] in register [start + i], keeps
    the other registers and the length of the bank, and is answered by the
    frame that echoes the start and the quantity; a read of the same range
    then returns the byte count and the values written. *)
Theorem write_multiple_registers_then_read
        (tags : list value) (u start qty bc : Z) (ws : list Z) :
  is_byte u -> is_word start -> is_word qty -> is_byte bc ->
  Forall is_word ws ->
  length tags = 1000%nat ->
  start <= 999 -> start + qty - 1 <= 999 ->
  bc = qty * 2 ->
  Z.of_nat (length ws) = qty ->
  exists tags',
    handle0x10Request tags
      (with_crc (write_request u start qty bc (word_bytes ws)))
    = Ret (tags', with_crc ([u; 0x10] ++ hi_lo start ++ hi_lo qty))
    /\ length tags' = length tags
    /\ (forall i, 0 <= i < qty ->
                  Js.getv tags' (start + i) = Num (nth (Z.to_nat i) ws 0))
    /\ (forall j, ~ (start <= j < start + qty) ->
                  Js.getv tags' j = Js.getv tags j)
    /\ handle0x03Request tags' (with_crc (read_request u start qty))
       = Ret (tags', read_response u qty ws).
Proof.
  intros Hu Hs Hq Hbc Hws Hlen Hs999 Hend Hbcq Hn.
  set (tags' := firstn (Z.to_nat start) tags ++ map Num ws
                ++ skipn (Z.to_nat start + length ws) tags).
  assert (Hs0 : 0 <= start) by (unfold is_word in Hs; lia).
  assert (Hpre : length (firstn (Z.to_nat start) tags) = Z.to_nat start).
  { rewrite length_firstn. lia. }
  exists tags'. repeat split.
  - pose proof (write_request_bytes u start qty bc ws Hu Hs Hq Hbc Hws) as Hb.
    destruct (crc_bytes _ Hb) as (Hl & Hh & Hc).
    unfold with_crc at 1. rewrite handle0x10_frame by assumption.
    rewrite Hc.
    destruct (Z.ltb_spec 999 start); [lia|].
    destruct (Z.ltb_spec 999 (start + qty - 1)); [lia|].
    cbn [orb]. rewrite (proj2 (Z.eqb_eq (2 * qty) bc)) by lia.
    rewrite (proj2 (Z.eqb_eq qty (Z.of_nat (length ws)))) by lia.
    cbn [negb]. rewrite <- Hn at 1.
    rewrite store_values_bank by lia. reflexivity.
  - unfold tags'. rewrite !length_app, length_map, length_firstn, length_skipn. lia.
  - intros i Hi. unfold tags'.
    rewrite getv_app_r by lia. rewrite Hpre.
    rewrite getv_app_l by (rewrite length_map; lia).
    replace (start + i - Z.of_nat (Z.to_nat start)) with i by lia.
    apply getv_numbers. lia.
  - intros j Hj. unfold tags'.
    destruct (Z.lt_ge_cases j start) as [Hlt|Hge].
    + rewrite getv_app_l by lia. apply getv_firstn. lia.
    + rewrite getv_app_r by lia. rewrite Hpre.
      rewrite getv_app_r by (rewrite length_map; lia).
      rewrite length_map, getv_skipn by lia. f_equal. lia.
  - pose proof (read_request_bytes u start qty Hu Hs Hq) as Hb.
    destruct (crc_bytes _ Hb) as (Hl & Hh & Hc).
    unfold with_crc at 1. rewrite handle0x03_frame by assumption.
    rewrite Hc.
    destruct (Z.ltb_spec 999 start); [lia|].
    destruct (Z.ltb_spec 999 (start + qty - 1)); [lia|].
    cbn [orb]. f_equal. f_equal.
    replace (Js.slice tags' start (start + qty)) with (map Num ws).
    + apply read_success_bytes; try assumption; unfold is_word, is_byte in *; lia.
    + pose proof (slice_middle (firstn (Z.to_nat start) tags) (map Num ws)
                    (skipn (Z.to_nat start + length ws) tags)) as E.
      rewrite Hpre, length_map in E.
      replace (Z.of_nat (Z.to_nat start)) with start in E by lia.
      replace (Z.of_nat (Z.to_nat start + length ws)) with (start + qty) in E by lia.
      symmetry. exact E.
Qed.

(** Claim C2.  For a unit id and a function id that are bytes and fields in
    range, [makePDU] emits the unit id, the function id, each field (a
    one-byte field as it is, a two-byte field high byte first) and then the
    CRC-16 of all these bytes, low byte first and high byte second. *)
Theorem makePDU_wire_format (u f : Z) (fs : list field_spec) :
  is_byte u -> is_byte f -> Forall in_range fs ->
  let body := u :: f :: flat_map emit fs in
  makePDU (Num u) (Num f) (map arg_of fs)
  = body ++ [crc_of body mod 256; crc_of body / 256]
  /\ CRC_16 (map Num body) = Num (crc_of body).
Proof.
  intros Hu Hf Hfs body. split.
  - apply makePDU_encodes; assumption.
  - apply crc_of_word. constructor; [exact Hu|]. constructor; [exact Hf|].
    apply flat_emit_bytes, Hfs.
Qed.

(** Claim C6, as amended.  A 0x03 request with a valid checksum, a start
    of at most 999, [start + quantity - 1] of at most 999 and a quantity of
    at most 127 is answered by the byte count [quantity * 2] on one byte and
    the [quantity] registers from [start] on, two bytes each, in order; the
    bank is left as it was. *)
Theorem read_holding_registers (regs : list Z) (u start qty : Z) :
  is_byte u -> is_word start -> is_word qty ->
  Forall is_word regs -> length regs = 1000%nat ->
  start <= 999 -> start + qty - 1 <= 999 -> qty <= 127 ->
  let values := firstn (Z.to_nat qty) (skipn (Z.to_nat start) regs) in
  handle0x03Request (map Num regs) (with_crc (read_request u start qty))
  = Ret (map Num regs, read_response u qty values)
  /\ Z.of_nat (length values) = qty.
Proof.
  intros Hu Hs Hq Hregs Hlen Hs999 Hend Hq127 values.
  assert (Hs0 : 0 <= start) by (unfold is_word in Hs; lia).
  assert (Hq0 : 0 <= qty) by (unfold is_word in Hq; lia).
  split.
  - pose proof (read_request_bytes u start qty Hu Hs Hq) as Hb.
    destruct (crc_bytes _ Hb) as (Hl & Hh & Hc).
    unfold with_crc at 1. rewrite handle0x03_frame by assumption.
    rewrite Hc.
    destruct (Z.ltb_spec 999 start); [lia|].
    destruct (Z.ltb_spec 999 (start + qty - 1)); [lia|].
    cbn [orb]. f_equal. f_equal.
    rewrite slice_map, slice_range by lia.
    replace (start + qty - start) with qty by lia.
    apply read_success_bytes; try assumption; try lia.
    apply Forall_firstn, Forall_skipn, Hregs.
  - unfold values. rewrite length_firstn, length_skipn. lia.
Qed.

(** Claim C10.  A request whose second byte is neither 0x03 nor 0x10 is
    answered, whatever the bytes that follow, by the unit id, the function
    code with its high bit set, the exception code 1 and the checksum of
    these three bytes. *)
Theorem illegal_function_response
        (tags : list value) (u f : Z) (rest : list Z) :
  is_byte u -> is_byte f -> f <> 0x03 -> f <> 0x10 ->
  let frame := [u; Z.lor f 0x80; 1] in
  let response := frame ++ [crc_of frame mod 256; crc_of frame / 256] in
  handleModbusRequest tags (u :: f :: rest) = Ret (tags, response)
  /\ on_data (Num u) tags (u :: f :: rest) = Some (Ret (tags, response)).
Proof.
  intros Hu Hf H3 H16 frame response.
  assert (E : handleModbusRequest tags (u :: f :: rest) = Ret (tags, response)).
  { unfold handleModbusRequest. cbn [Js.get nth_error Js.strict_eq].
    rewrite (proj2 (Z.eqb_neq f 0x03) H3), (proj2 (Z.eqb_neq f 0x10) H16).
    rewrite makeError_frame by (assumption || (unfold is_byte; lia)).
    reflexivity. }
  split; [exact E|].
  unfold on_data. cbn [Js.get nth_error Js.strict_eq].
  rewrite Z.eqb_refl, E. reflexivity.
Qed.

(** ** Frames on which the 0x10 handler throws *)

Lemma parse_fields_dangling_high l x :
  parse_fields (l ++ [(x, 1)]) = Throw.
Proof.
  induction l as [|c l IH]; [reflexivity|].
  cbn [app parse_fields]. rewrite IH.
  destruct (if snd c =? 1 then _ else _); reflexivity.
Qed.

(** A 0x10 frame with an odd number of payload bytes makes [parsePDU] read
    past the end of [data]: the handler throws before validating anything. *)
Lemma odd_payload_throws tags u f sh sl qh ql bc ws x cl ch :
  handle0x10Request tags
    ([u; f; sh; sl; qh; ql; bc] ++ word_bytes ws ++ [x; cl; ch]) = Throw.
Proof.
  unfold handle0x10Request.
  replace (refactor0x10 _)
    with ((Num u, 0) :: (Num f, 0)
          :: (([(Num sh, 1); (Num sl, 2); (Num qh, 1); (Num ql, 2); (Num bc, 0)]
               ++ flat_map cells_of (map Word2 ws)) ++ [(Num x, 1)])
          ++ [(Num cl, 2); (Num ch, 1)]).
  - rewrite parsePDU_frame, parse_fields_dangling_high. reflexivity.
  - unfold refactor0x10.
    rewrite (slice_from [u; f; sh; sl; qh; ql; bc]).
    rewrite mapi_words by reflexivity.
    cbn [app Js.get nth_error mapi_from]. rewrite <- !app_assoc. reflexivity.
Qed.

(** A 0x10 frame too short to hold the byte count and a checksum throws as
    well. *)
Lemma short_write_throws tags request :
  (length request <= 7)%nat -> handle0x10Request tags request = Throw.
Proof.
  intros H.
  do 8 (destruct request as [|? request]; [reflexivity|]).
  cbn [length] in H. lia.
Qed.

(** [handle0x03Request] answers every request, whatever its length. *)
Lemma handle0x03_total tags request :
  exists response, handle0x03Request tags request = Ret (tags, response).
Proof.
  unfold handle0x03Request.
  change (refactor0x03 request)
    with ((Js.get request 0, 0) :: (Js.get request 1, 0)
          :: [ (Js.get request 2, 1); (Js.get request 3, 2);
               (Js.get request 4, 1); (Js.get request 5, 2) ]
          ++ [ (Js.get request 6, 1); (Js.get request 7, 2) ]).
  rewrite parsePDU_frame. cbn [parse_fields bind fst snd Z.eqb Pos.eqb app].
  destruct (validateCRC_16 _ _); [|eexists; reflexivity].
  cbn [data]. destruct (out_of_range _); eexists; reflexivity.
Qed.

(** A 0x10 frame whose payload is a run of two-byte values is answered. *)
Lemma handle0x10_word_payload_total tags u start qty bc ws cl ch :
  is_byte u -> is_word start -> is_word qty -> is_byte bc ->
  Forall is_word ws -> is_byte cl -> is_byte ch ->
  exists reply,
    handle0x10Request tags
      (write_request u start qty bc (word_bytes ws) ++ [cl; ch]) = Ret reply.
Proof.
  intros. rewrite handle0x10_frame by assumption. eexists. reflexivity.
Qed.

(** ** The listener *)

(** A frame addressed to another unit is dropped without an answer. *)
Lemma on_data_other_unit id tags u rest :
  u <> id -> on_data (Num id) tags (u :: rest) = None.
Proof.
  intros H. unfold on_data. cbn [Js.get nth_error Js.strict_eq].
  rewrite (proj2 (Z.eqb_neq u id) H). reflexivity.
Qed.

Lemma on_data_empty id tags : on_data (Num id) tags [] = None.
Proof. reflexivity. Qed.

(** A frame addressed to this unit is handed to the dispatcher. *)
Lemma on_data_this_unit id tags rest :
  on_data (Num id) tags (id :: rest)
  = Some (handleModbusRequest tags (id :: rest)).
Proof.
  unfold on_data. cbn [Js.get nth_error Js.strict_eq].
  rewrite Z.eqb_refl. reflexivity.
Qed.

(** Only the 0x10 handler can throw: every other frame is answered, the
    bank being left as it was. *)
Lemma dispatcher_answers_other_functions tags request :
  Js.get request 1 <> Num 0x10 ->
  exists response, handleModbusRequest tags request = Ret (tags, response).
Proof.
  intros H. unfold handleModbusRequest.
  destruct (Js.strict_eq (Js.get request 1) (Num 0x03)).
  - apply handle0x03_total.
  - destruct (Js.strict_eq (Js.get request 1) (Num 0x10)) eqn:E.
    + exfalso. apply H. destruct (Js.get request 1) as [z| |]; try discriminate.
      cbn [Js.strict_eq] in E. apply Z.eqb_eq in E. subst z. reflexivity.
    + eexists. reflexivity.
Qed.

(** ** The order of the validations *)

(** A checksum that does not match is reported with the exception code 4. *)
Lemma checksum_failure_0x03 tags u start qty cl ch :
  is_byte u -> is_word start -> is_word qty -> is_byte cl -> is_byte ch ->
  ch * 256 + cl <> crc_of (read_request u start qty) ->
  handle0x03Request tags (read_request u start qty ++ [cl; ch])
  = Ret (tags, exception_response u 0x03 4).
Proof.
  intros Hu Hs Hq Hcl Hch Hne. rewrite handle0x03_frame by assumption.
  rewrite (proj2 (Z.eqb_neq _ _)) by lia. reflexivity.
Qed.

Lemma checksum_failure_0x10 tags u start qty bc ws cl ch :
  is_byte u -> is_word start -> is_word qty -> is_byte bc ->
  Forall is_word ws -> is_byte cl -> is_byte ch ->
  ch * 256 + cl <> crc_of (write_request u start qty bc (word_bytes ws)) ->
  handle0x10Request tags
    (write_request u start qty bc (word_bytes ws) ++ [cl; ch])
  = Ret (tags, exception_response u 0x10 4).
Proof.
  intros Hu Hs Hq Hbc Hws Hcl Hch Hne. rewrite handle0x10_frame by assumption.
  rewrite (proj2 (Z.eqb_neq _ _)) by lia. reflexivity.
Qed.

(** With a valid checksum, a range that ends after register 999 is reported
    with the exception code 2, whatever the byte count and the payload. *)
Lemma address_out_of_range_0x03 tags u start qty :
  is_byte u -> is_word start -> is_word qty ->
  start + qty - 1 > 999 ->
  handle0x03Request tags (with_crc (read_request u start qty))
  = Ret (tags, exception_response u 0x03 2).
Proof.
  intros Hu Hs Hq Hout.
  destruct (crc_bytes _ (read_request_bytes u start qty Hu Hs Hq))
    as (Hl & Hh & Hc).
  unfold with_crc at 1. rewrite handle0x03_frame, Hc by assumption.
  destruct (Z.ltb_spec 999 (start + qty - 1)); [|lia].
  rewrite orb_true_r. reflexivity.
Qed.

Lemma address_out_of_range_0x10 tags u start qty bc ws :
  is_byte u -> is_word start -> is_word qty -> is_byte bc ->
  Forall is_word ws ->
  start + qty - 1 > 999 ->
  handle0x10Request tags
    (with_crc (write_request u start qty bc (word_bytes ws)))
  = Ret (tags, exception_response u 0x10 2).
Proof.
  intros Hu Hs Hq Hbc Hws Hout.
  destruct (crc_bytes _ (write_request_bytes u start qty bc ws Hu Hs Hq Hbc Hws))
    as (Hl & Hh & Hc).
  unfold with_crc at 1. rewrite handle0x10_frame, Hc by assumption.
  destruct (Z.ltb_spec 999 (start + qty - 1)); [|lia].
  rewrite orb_true_r. reflexivity.
Qed.

(** With a valid checksum and a range within the bank, a byte count other
    than twice the quantity is reported with the exception code 3. *)
Lemma byte_count_mismatch_0x10 tags u start qty bc ws :
  is_byte u -> is_word start -> is_word qty -> is_byte bc ->
  Forall is_word ws ->
  start <= 999 -> start + qty - 1 <= 999 ->
  bc <> qty * 2 ->
  handle0x10Request tags
    (with_crc (write_request u start qty bc (word_bytes ws)))
  = Ret (tags, exception_response u 0x10 3).
Proof.
  intros Hu Hs Hq Hbc Hws Hs999 Hend Hne.
  destruct (crc_bytes _ (write_request_bytes u start qty bc ws Hu Hs Hq Hbc Hws))
    as (Hl & Hh & Hc).
  unfold with_crc at 1. rewrite handle0x10_frame, Hc by assumption.
  destruct (Z.ltb_spec 999 start); [lia|].
  destruct (Z.ltb_spec 999 (start + qty - 1)); [lia|].
  rewrite (proj2 (Z.eqb_neq (2 * qty) bc)) by lia. reflexivity.
Qed.

(** ** Frames that contradict the specification *)

(** Claim C4.  The frame 01 10 00 00 00 01 01 AA with its checksum is
    addressed to unit 1 and complete (seven bytes, the one payload byte its
    byte count announces, two checksum bytes), yet the listener ends in a
    [TypeError] instead of writing a response. *)
Theorem dispatcher_throws_on_odd_payload :
  on_data (Num 1) default_tags (with_crc [1; 0x10; 0; 0; 0; 1; 1; 0xAA])
  = Some Throw.
Proof. vm_compute. reflexivity. Qed.

(** Claim C7.  The last two bytes of the 0x10 frame
    01 10 00 00 00 01 01 AA 00 00 do not match the checksum of the bytes
    before them, yet the dispatcher throws instead of answering with the
    exception code 4. *)
Theorem bad_checksum_with_odd_payload_throws :
  crc_of [1; 0x10; 0; 0; 0; 1; 1; 0xAA] <> 0 * 256 + 0
  /\ handleModbusRequest default_tags [1; 0x10; 0; 0; 0; 1; 1; 0xAA; 0; 0]
     = Throw.
Proof. split; [vm_compute; discriminate|vm_compute; reflexivity]. Qed.

(** Claim C8.  The 0x10 frame 01 10 03 E8 00 01 01 AA with its checksum asks
    for one register at 1000, beyond the bank, yet the dispatcher throws
    instead of answering with the exception code 2. *)
Theorem out_of_range_with_odd_payload_throws :
  1000 + 1 - 1 > 999
  /\ handleModbusRequest default_tags
       (with_crc ([1; 0x10] ++ hi_lo 1000 ++ hi_lo 1 ++ [1; 0xAA]))
     = Throw.
Proof. split; [lia|vm_compute; reflexivity]. Qed.

(** Claim C9.  The 0x10 frame 01 10 00 00 00 02 03 00 0A 00 with its
    checksum announces 3 bytes for a quantity of 2, yet the dispatcher
    throws instead of answering with the exception code 3. *)
Theorem byte_count_mismatch_with_odd_payload_throws :
  3 <> 2 * 2
  /\ handleModbusRequest default_tags
       (with_crc ([1; 0x10] ++ hi_lo 0 ++ hi_lo 2 ++ [3; 0; 10; 0]))
     = Throw.
Proof. split; [lia|vm_compute; reflexivity]. Qed.

(** Claim C6 as stated fails on two requests with a valid checksum and
    [start + quantity - 1 <= 999]: the read of no register at 1000 is
    refused with the exception code 2, and the read of 128 registers at 0
    carries the byte count 255, one byte being too small for 256. *)
Lemma read_claim_fails :
  (1000 + 0 - 1 <= 999
   /\ handle0x03Request default_tags (with_crc (read_request 1 1000 0))
      = Ret (default_tags, exception_response 1 0x03 2)
   /\ exception_response 1 0x03 2 <> read_response 1 0 [])
  /\ (0 + 128 - 1 <= 999
      /\ (exists response,
             handle0x03Request default_tags (with_crc (read_request 1 0 128))
             = Ret (default_tags, response)
             /\ nth 2 response 0 = 255
             /\ response <> read_response 1 128 (repeat 0 128))).
Proof.
  split.
  - split; [lia|]. split; [vm_compute; reflexivity|].
    vm_compute. discriminate.
  - split; [lia|]. eexists. split; [vm_compute; reflexivity|].
    split; [reflexivity|]. vm_compute. discriminate.
Qed.

(** ** Instances *)

Ltac in_range_list :=
  repeat (constructor; [cbv [in_range is_byte is_word]; lia|]); constructor.

Ltac in_range_value := cbv [is_byte is_word]; lia.

Lemma CRC_16_refines_spec_witness :
  CRC_16 (map Num [0x11; 0x03; 0x00; 0x6B; 0x00; 0x03])
  = Num (CrcSpec.compute [0x11; 0x03; 0x00; 0x6B; 0x00; 0x03])
  /\ is_word (CrcSpec.compute [0x11; 0x03; 0x00; 0x6B; 0x00; 0x03])
  /\ CRC_16 (map Num [0x01; 0x03; 0x00; 0x00; 0x00; 0x0A]) = Num 0xCDC5.
Proof.
  apply (CRC_16_refines_spec [0x11; 0x03; 0x00; 0x6B; 0x00; 0x03]).
  in_range_list.
Defined.

Lemma makePDU_wire_format_witness :
  let body := 1 :: 3 :: flat_map emit [Byte1 4; Word2 0x1234] in
  makePDU (Num 1) (Num 3) (map arg_of [Byte1 4; Word2 0x1234])
  = body ++ [crc_of body mod 256; crc_of body / 256]
  /\ CRC_16 (map Num body) = Num (crc_of body).
Proof.
  apply (makePDU_wire_format 1 3 [Byte1 4; Word2 0x1234]).
  - in_range_value.
  - in_range_value.
  - in_range_list.
Defined.

Lemma decode_encode_round_trip_witness :
  parsePDU
    (annotate (map width [Word2 513; Byte1 5; Word2 65535])
       (makePDU (Num 7) (Num 0x10)
          (map arg_of [Word2 513; Byte1 5; Word2 65535])))
  = Ret (Some (mkPdu (Num 7) (Num 0x10)
                 (map flat_value [Word2 513; Byte1 5; Word2 65535]))).
Proof.
  apply (decode_encode_round_trip 7 0x10 [Word2 513; Byte1 5; Word2 65535]).
  - in_range_value.
  - in_range_value.
  - in_range_list.
Defined.

Lemma write_multiple_registers_then_read_witness :
  exists tags',
    handle0x10Request default_tags
      (with_crc (write_request 1 0 3 6 (word_bytes [10; 20; 30])))
    = Ret (tags', with_crc ([1; 0x10] ++ hi_lo 0 ++ hi_lo 3))
    /\ length tags' = length default_tags
    /\ (forall i, 0 <= i < 3 ->
                  Js.getv tags' (0 + i) = Num (nth (Z.to_nat i) [10; 20; 30] 0))
    /\ (forall j, ~ (0 <= j < 0 + 3) ->
                  Js.getv tags' j = Js.getv default_tags j)
    /\ handle0x03Request tags' (with_crc (read_request 1 0 3))
       = Ret (tags', read_response 1 3 [10; 20; 30]).
Proof.
  apply (write_multiple_registers_then_read
           default_tags 1 0 3 6 [10; 20; 30]).
  - in_range_value.
  - in_range_value.
  - in_range_value.
  - in_range_value.
  - in_range_list.
  - reflexivity.
  - lia.
  - lia.
  - reflexivity.
  - reflexivity.
Defined.

Lemma read_holding_registers_witness :
  let values := firstn (Z.to_nat 2) (skipn (Z.to_nat 998) (repeat 7 1000)) in
  handle0x03Request (map Num (repeat 7 1000))
                    (with_crc (read_request 1 998 2))
  = Ret (map Num (repeat 7 1000), read_response 1 2 values)
  /\ Z.of_nat (length values) = 2.
Proof.
  apply (read_holding_registers (repeat 7 1000) 1 998 2).
  - in_range_value.
  - in_range_value.
  - in_range_value.
  - apply Forall_forall. intros x Hx. apply repeat_spec in Hx. subst x.
    in_range_value.
  - apply repeat_length.
  - lia.
  - lia.
  - lia.
Defined.

Lemma illegal_function_response_witness :
  let frame := [1; Z.lor 0x06 0x80; 1] in
  let response := frame ++ [crc_of frame mod 256; crc_of frame / 256] in
  handleModbusRequest default_tags (1 :: 0x06 :: [0; 0; 0; 1; 0xFF; 0xFF])
  = Ret (default_tags, response)
  /\ on_data (Num 1) default_tags (1 :: 0x06 :: [0; 0; 0; 1; 0xFF; 0xFF])
     = Some (Ret (default_tags, response)).
Proof.
  apply (illegal_function_response default_tags 1 0x06 [0; 0; 0; 1; 0xFF; 0xFF]).
  - in_range_value.
  - in_range_value.
  - discriminate.
  - discriminate.
Defined.

(** ** The scenarios of the specification *)

(** Scenario A: on the all-zero bank, writing 10, 20, 30 at 0 is echoed,
    and the read of three registers at 0 returns them. *)
Example scenario_A :
  let written :=
    Num 10 :: Num 20 :: Num 30 :: repeat (Num 0) 997 in
  handleModbusRequest default_tags
    (with_crc [1; 0x10; 0; 0; 0; 3; 6; 0; 10; 0; 20; 0; 30])
  = Ret (written, with_crc [1; 0x10; 0; 0; 0; 3])
  /\ handleModbusRequest written (with_crc [1; 0x03; 0; 0; 0; 3])
     = Ret (written, with_crc [1; 0x03; 6; 0; 10; 0; 20; 0; 30]).
Proof. split; vm_compute; reflexivity. Qed.

(** Scenario B: the function 0x06 is answered by 01 86 01 and a checksum; a
    frame for unit 2 is not answered by unit 1. *)
Example scenario_B :
  on_data (Num 1) default_tags (with_crc [1; 0x06; 0; 0; 0; 10])
  = Some (Ret (default_tags, with_crc [1; 0x86; 1]))
  /\ on_data (Num 1) default_tags (with_crc [2; 0x06; 0; 0; 0; 10]) = None.
Proof. split; vm_compute; reflexivity. Qed.

(** Scenario C: a read request whose last checksum byte is corrupted is
    answered with the exception code 4. *)
Example scenario_C :
  with_crc [1; 0x03; 0; 0; 0; 10] = [1; 0x03; 0; 0; 0; 10; 0xC5; 0xCD]
  /\ handleModbusRequest default_tags [1; 0x03; 0; 0; 0; 10; 0xC5; 0xCC]
     = Ret (default_tags, with_crc [1; 0x83; 4]).
Proof. split; vm_compute; reflexivity. Qed.

(** * Further properties of the code

    ** The checksum detects errors *)

Lemma compute_from_app l1 : forall w l2,
  CrcSpec.compute_from w (l1 ++ l2)
  = CrcSpec.compute_from (CrcSpec.compute_from w l1) l2.
Proof.
  induction l1 as [|b l1 IH]; intros w l2; [reflexivity|].
  cbn [app CrcSpec.compute_from]. apply IH.
Qed.

Lemma compute_from_word l : forall w,
  is_word w -> Forall is_byte l -> is_word (CrcSpec.compute_from w l).
Proof.
  intros w Hw Hl. apply (fold_crc_spec l w Hw Hl).
Qed.

Lemma shift_even x : 0 <= x -> CrcSpec.shift_step (2 * x) = x.
Proof.
  intros Hx. unfold CrcSpec.shift_step.
  rewrite Z.odd_mul. cbn [Z.odd andb].
  rewrite Z.mul_comm, Z.div_mul by lia. reflexivity.
Qed.

Lemma shift_out_zero_byte h :
  0 <= h -> Nat.iter 8 CrcSpec.shift_step (h * 256) = h.
Proof.
  intros Hh. cbn [Nat.iter nat_rect].
  replace (h * 256) with (2 * (2 * (2 * (2 * (2 * (2 * (2 * (2 * h)))))))) by lia.
  rewrite !shift_even by lia. reflexivity.
Qed.

Lemma residue_from w :
  is_word w ->
  CrcSpec.compute_from w [w mod 256; w / 256] = 0.
Proof.
  intros Hw. cbn [CrcSpec.compute_from].
  assert (Hh : is_byte (w / 256)) by (apply word_hi, Hw).
  assert (E1 : CrcSpec.xor_low_byte w (w mod 256) = w / 256 * 256).
  { unfold CrcSpec.xor_low_byte. rewrite Z.lxor_nilpotent. lia. }
  rewrite E1, shift_out_zero_byte by (unfold is_byte in Hh; lia).
  assert (E2 : CrcSpec.xor_low_byte (w / 256) (w / 256) = 0).
  { unfold CrcSpec.xor_low_byte. unfold is_byte in Hh.
    rewrite (Z.div_small (w / 256) 256), (Z.mod_small (w / 256) 256) by lia.
    rewrite Z.lxor_nilpotent. reflexivity. }
  rewrite E2. reflexivity.
Qed.

Lemma with_crc_bytes body : Forall is_byte body -> Forall is_byte (with_crc body).
Proof.
  intros H. destruct (crc_bytes body H) as (Hl & Hh & _).
  unfold with_crc. apply Forall_app. split; [exact H|].
  constructor; [exact Hl|]. constructor; [exact Hh|constructor].
Qed.

Lemma crc_residue (body : list Z) :
  Forall is_byte body ->
  CRC_16 (map Num (with_crc body)) = Num 0.
Proof.
  intros H.
  destruct (CRC_16_spec (with_crc body) (with_crc_bytes body H)) as [-> _].
  f_equal. unfold with_crc, CrcSpec.compute. rewrite compute_from_app.
  destruct (crc_of_word body H) as [E W].
  destruct (CRC_16_spec body H) as [E' _]. rewrite E' in E.
  injection E as E. unfold CrcSpec.compute in E. rewrite E.
  apply residue_from. exact W.
Qed.

(** Property X1.  The checksum of a frame that ends with its own CRC-16,
    low byte first, is zero: a receiver may run [CRC_16] over the whole
    frame and compare with 0. *)
Theorem checksum_of_complete_frame_is_zero (body : list Z) :
  Forall is_byte body ->
  CRC_16 (map Num (with_crc body)) = Num 0.
Proof. apply crc_residue. Qed.

Lemma bit15_clear x : 0 <= x < 32768 -> Z.testbit x 15 = false.
Proof.
  intros H. destruct (Z.eq_dec x 0) as [->|]; [reflexivity|].
  apply Z.bits_above_log2; [lia|].
  apply Z.log2_lt_pow2; lia.
Qed.

Lemma half_word w : is_word w -> 0 <= w / 2 < 32768.
Proof.
  unfold is_word. intros H. split; [apply Z.div_pos; lia|].
  apply Z.div_lt_upper_bound; lia.
Qed.

Lemma shift_step_bit15 w :
  is_word w -> Z.testbit (CrcSpec.shift_step w) 15 = Z.odd w.
Proof.
  intros Hw. unfold CrcSpec.shift_step.
  pose proof (bit15_clear _ (half_word w Hw)) as Hb.
  destruct (Z.odd w).
  - rewrite Z.lxor_spec, Hb. reflexivity.
  - exact Hb.
Qed.

Lemma lxor_cancel_r a b c : Z.lxor a c = Z.lxor b c -> a = b.
Proof.
  intros E.
  rewrite <- (Z.lxor_0_r a), <- (Z.lxor_0_r b), <- (Z.lxor_nilpotent c).
  rewrite <- !Z.lxor_assoc, E. reflexivity.
Qed.

Lemma shift_step_injective a b :
  is_word a -> is_word b ->
  CrcSpec.shift_step a = CrcSpec.shift_step b -> a = b.
Proof.
  intros Ha Hb E.
  assert (Hodd : Z.odd a = Z.odd b).
  { rewrite <- (shift_step_bit15 a Ha), <- (shift_step_bit15 b Hb), E.
    reflexivity. }
  assert (Hhalf : a / 2 = b / 2).
  { unfold CrcSpec.shift_step in E. rewrite <- Hodd in E.
    destruct (Z.odd a); [|exact E].
    exact (lxor_cancel_r _ _ _ E). }
  rewrite (Z.div_mod a 2), (Z.div_mod b 2) by lia.
  rewrite !Zmod_odd, Hodd, Hhalf. reflexivity.
Qed.

Lemma iter_shift_word n w :
  is_word w -> is_word (Nat.iter n CrcSpec.shift_step w).
Proof. intros H. apply (iter_shift_spec n w H). Qed.

Lemma iter_shift_injective n : forall a b,
  is_word a -> is_word b ->
  Nat.iter n CrcSpec.shift_step a = Nat.iter n CrcSpec.shift_step b -> a = b.
Proof.
  induction n as [|n IH]; intros a b Ha Hb E; [exact E|].
  cbn [Nat.iter nat_rect] in E. apply IH; try assumption.
  apply shift_step_injective; try (apply iter_shift_word; assumption).
  exact E.
Qed.

Lemma crc_step_word w b :
  is_word w -> is_byte b ->
  is_word (Nat.iter 8 CrcSpec.shift_step (CrcSpec.xor_low_byte w b)).
Proof. intros Hw Hb. apply (crc_byte_spec w b Hw Hb). Qed.

Lemma crc_step_injective_state w1 w2 b :
  is_word w1 -> is_word w2 -> is_byte b ->
  Nat.iter 8 CrcSpec.shift_step (CrcSpec.xor_low_byte w1 b)
  = Nat.iter 8 CrcSpec.shift_step (CrcSpec.xor_low_byte w2 b) ->
  w1 = w2.
Proof.
  intros H1 H2 Hb E.
  rewrite !xor_low_byte_lxor in E by (unfold is_word in *; lia || exact Hb).
  apply iter_shift_injective in E;
    try (apply lxor_word; [assumption|apply byte_word; exact Hb]).
  exact (lxor_cancel_r _ _ _ E).
Qed.

Lemma crc_step_injective_byte w a b :
  is_word w -> is_byte a -> is_byte b ->
  Nat.iter 8 CrcSpec.shift_step (CrcSpec.xor_low_byte w a)
  = Nat.iter 8 CrcSpec.shift_step (CrcSpec.xor_low_byte w b) ->
  a = b.
Proof.
  intros Hw Ha Hb E.
  rewrite !xor_low_byte_lxor in E by (unfold is_word in *; lia || assumption).
  apply iter_shift_injective in E;
    try (apply lxor_word; [assumption|apply byte_word; assumption]).
  rewrite (Z.lxor_comm w a), (Z.lxor_comm w b) in E.
  exact (lxor_cancel_r _ _ _ E).
Qed.

Lemma compute_from_injective s : forall w1 w2,
  is_word w1 -> is_word w2 -> Forall is_byte s ->
  CrcSpec.compute_from w1 s = CrcSpec.compute_from w2 s -> w1 = w2.
Proof.
  induction s as [|b s IH]; intros w1 w2 H1 H2 Hs E; [exact E|].
  inversion Hs as [|? ? Hb Hs']; subst.
  cbn [CrcSpec.compute_from] in E.
  apply IH in E; try assumption; try (apply crc_step_word; assumption).
  exact (crc_step_injective_state _ _ _ H1 H2 Hb E).
Qed.

(** Property X2.  [validateCRC_16] rejects a message in which one byte was
    replaced by another, when it is given the checksum of the original. *)
Theorem single_byte_corruption_detected (p s : list Z) (a b : Z) :
  Forall is_byte p -> Forall is_byte s -> is_byte a -> is_byte b ->
  a <> b ->
  validateCRC_16 (map Num (p ++ a :: s)) (CRC_16 (map Num (p ++ b :: s)))
  = false.
Proof.
  intros Hp Hs Ha Hb Hne.
  assert (Hpa : Forall is_byte (p ++ a :: s)).
  { apply Forall_app. split; [exact Hp|constructor; assumption]. }
  assert (Hpb : Forall is_byte (p ++ b :: s)).
  { apply Forall_app. split; [exact Hp|constructor; assumption]. }
  unfold validateCRC_16.
  destruct (CRC_16_spec _ Hpa) as [-> _]. destruct (CRC_16_spec _ Hpb) as [-> _].
  cbn [Js.strict_eq]. apply Z.eqb_neq. intros E. apply Hne.
  unfold CrcSpec.compute in E. rewrite !compute_from_app in E.
  set (w := CrcSpec.compute_from CrcSpec.initial p) in E.
  assert (Hw : is_word w).
  { apply compute_from_word; [unfold is_word, CrcSpec.initial; lia|exact Hp]. }
  cbn [CrcSpec.compute_from] in E.
  apply compute_from_injective in E;
    try assumption; try (apply crc_step_word; assumption).
  exact (crc_step_injective_byte w a b Hw Ha Hb E).
Qed.

(** ** [makePDU] on arbitrary arguments *)

Lemma clamp8_is_byte v : is_byte (Js.clamp8 v).
Proof. unfold is_byte. destruct v; cbn [Js.clamp8]; lia. Qed.

Lemma clamped_bytes l : Forall is_byte (map Js.clamp8 l).
Proof. induction l; cbn [map]; constructor; [apply clamp8_is_byte|assumption]. Qed.

Lemma makePDU_clamped u f args :
  makePDU u f args
  = with_crc (map Js.clamp8 (u :: f :: flat_map push_field args)).
Proof. apply makePDU_bytes; [reflexivity|apply clamped_bytes]. Qed.

(** Property X3.  Whatever the values and the widths it is given, [makePDU]
    returns bytes: the saturated header and field bytes followed by their
    CRC-16, low byte first, so that the checksum of the whole frame is 0. *)
Theorem makePDU_always_checksummed (u f : value) (args : list field) :
  makePDU u f args
  = with_crc (map Js.clamp8 (u :: f :: flat_map push_field args))
  /\ Forall is_byte (makePDU u f args)
  /\ CRC_16 (map Num (makePDU u f args)) = Num 0.
Proof.
  rewrite makePDU_clamped.
  set (body := map Js.clamp8 (u :: f :: flat_map push_field args)).
  assert (Hb : Forall is_byte body) by apply clamped_bytes.
  split; [reflexivity|].
  split; [apply with_crc_bytes, Hb|].
  apply crc_residue, Hb.
Qed.

Lemma clamp8_idempotent v : Js.clamp8 (Num (Js.clamp8 v)) = Js.clamp8 v.
Proof. apply clamp8_byte, clamp8_is_byte. Qed.

(** Property X4.  [makePDU] saturates a one-byte field to 0..255 instead
    of refusing it, and drops a field whose width is neither 1 nor 2. *)
Theorem makePDU_saturates_and_skips
        (u f : value) (pre post : list field) (v : Z) (x : value) (w : Z) :
  makePDU u f (pre ++ (Num v, 1) :: post)
  = makePDU u f (pre ++ (Num (Z.max 0 (Z.min 255 v)), 1) :: post)
  /\ (w <> 1 -> w <> 2 ->
      makePDU u f (pre ++ (x, w) :: post) = makePDU u f (pre ++ post)).
Proof.
  split.
  - rewrite !makePDU_clamped. f_equal. cbn [map]. f_equal. f_equal.
    rewrite !flat_map_app, !map_app. f_equal.
    cbn [flat_map push_field fst snd Z.eqb Pos.eqb app map]. f_equal.
    exact (eq_sym (clamp8_idempotent (Num v))).
  - intros H1 H2. rewrite !makePDU_clamped. f_equal. cbn [map]. f_equal. f_equal.
    rewrite !flat_map_app, !map_app. f_equal.
    cbn [flat_map]. unfold push_field at 1. cbn [fst snd].
    rewrite (proj2 (Z.eqb_neq w 1) H1), (proj2 (Z.eqb_neq w 2) H2).
    reflexivity.
Qed.

(** ** When [parsePDU] throws *)

Lemma parse_fields_throws l :
  parse_fields l = Throw <-> exists l' x, l = l' ++ [(x, 1)].
Proof.
  split.
  - induction l as [|c rest IH]; [discriminate|].
    cbn [parse_fields]. destruct c as [x role]. cbn [fst snd].
    destruct rest as [|next rest'].
    + destruct (role =? 1) eqn:E; [|discriminate].
      intros _. exists [], x. apply Z.eqb_eq in E. subst role. reflexivity.
    + intros H.
      assert (Hr : parse_fields (next :: rest') = Throw).
      { destruct (role =? 1); cbn [bind] in H;
          destruct (parse_fields (next :: rest')); (reflexivity || discriminate). }
      destruct (IH Hr) as (l' & y & El).
      exists ((x, role) :: l'), y. rewrite El. reflexivity.
  - intros (l' & x & ->). apply parse_fields_dangling_high.
Qed.

Lemma last_two {A} (l : list A) :
  (2 <= length l)%nat -> exists l' a b, l = l' ++ [a; b].
Proof.
  intros H. destruct (exists_last (l := l)) as (l1 & b & ->).
  { intros ->. cbn in H. lia. }
  rewrite length_app in H. cbn [length] in H.
  destruct (exists_last (l := l1)) as (l2 & a & ->).
  { intros ->. cbn in H. lia. }
  exists l2, a, b. rewrite <- app_assoc. reflexivity.
Qed.

(** Property X5.  [parsePDU] throws exactly when its array has fewer than
    two cells or when the cell before the two checksum cells is labelled as
    a high byte: it then reads the low byte past the end of the data. *)
Theorem parsePDU_throws_exactly (PDU : list cell) :
  parsePDU PDU = Throw
  <-> (length PDU < 2)%nat
      \/ exists c0 c1 mid x lo hi, PDU = c0 :: c1 :: mid ++ [(x, 1); lo; hi].
Proof.
  split.
  - intros H. destruct PDU as [|c0 [|c1 rest]]; [left; cbn; lia..|]. right.
    destruct rest as [|a [|b rest']]; [discriminate H..|].
    destruct (last_two (a :: b :: rest')) as (mid & lo & hi & E);
      [cbn [length]; lia|].
    rewrite E in H |- *. rewrite parsePDU_frame in H.
    destruct (parse_fields mid) eqn:Ep; [|discriminate H].
    apply parse_fields_throws in Ep. destruct Ep as (l' & x & ->).
    exists c0, c1, l', x, lo, hi. rewrite <- app_assoc. reflexivity.
  - intros [H|(c0 & c1 & mid & x & lo & hi & ->)].
    + destruct PDU as [|c0 [|c1 rest]]; [reflexivity..|cbn [length] in H; lia].
    + replace (mid ++ [(x, 1); lo; hi]) with ((mid ++ [(x, 1)]) ++ [lo; hi])
        by (rewrite <- app_assoc; reflexivity).
      rewrite parsePDU_frame, parse_fields_dangling_high. reflexivity.
Qed.

(** ** The dispatcher on every frame of bytes *)

Lemma list_pair_ind {A} (P : list A -> Prop) :
  P [] -> (forall x, P [x]) -> (forall x y l, P l -> P (x :: y :: l)) ->
  forall l, P l.
Proof.
  intros H0 H1 H2.
  assert (H : forall l, P l /\ forall x, P (x :: l)).
  { induction l as [|y l [IH1 IH2]]; split; auto. }
  intros l. apply H.
Qed.

Lemma hi_lo_join x y : is_byte x -> is_byte y -> hi_lo (x * 256 + y) = [x; y].
Proof.
  unfold is_byte, hi_lo. intros Hx Hy.
  assert (E1 : (x * 256 + y) / 256 = x).
  { rewrite Z.div_add_l, Z.div_small by lia. lia. }
  assert (E2 : (x * 256 + y) mod 256 = y).
  { rewrite Z.add_comm, Z.mod_add, Z.mod_small by lia. reflexivity. }
  rewrite E1, E2. reflexivity.
Qed.

Lemma join_is_word x y : is_byte x -> is_byte y -> is_word (x * 256 + y).
Proof. unfold is_byte, is_word. lia. Qed.

Lemma bytes_as_words l :
  Forall is_byte l ->
  exists ws, Forall is_word ws
             /\ (l = word_bytes ws
                 \/ exists x, is_byte x /\ l = word_bytes ws ++ [x]).
Proof.
  induction l as [|x|x y l IH] using list_pair_ind; intros H.
  - exists []. split; [constructor|left; reflexivity].
  - exists []. split; [constructor|right]. exists x. split; [|reflexivity].
    inversion H; assumption.
  - inversion H as [|? ? Hx H']; subst. inversion H' as [|? ? Hy Hl]; subst.
    destruct (IH Hl) as (ws & Hws & Hcase).
    exists ((x * 256 + y) :: ws). split.
    + constructor; [apply join_is_word; assumption|exact Hws].
    + cbn [word_bytes flat_map]. fold (word_bytes ws).
      rewrite hi_lo_join by assumption. cbn [app].
      destruct Hcase as [->|(z & Hz & ->)]; [left; reflexivity|right].
      exists z. split; [exact Hz|reflexivity].
Qed.


(** A 0x10 frame of eight bytes: no byte count, no payload. *)
Lemma handle0x10_bare tags u f sh sl qh ql cl ch :
  is_byte u -> is_byte f -> is_byte sh -> is_byte sl ->
  is_byte qh -> is_byte ql -> is_byte cl -> is_byte ch ->
  handle0x10Request tags [u; f; sh; sl; qh; ql; cl; ch]
  = Ret (tags,
         if crc_of [u; f; sh; sl; qh; ql] =? ch * 256 + cl
         then if (999 <? sh * 256 + sl)
                 || (999 <? sh * 256 + sl + (qh * 256 + ql) - 1)
              then exception_response u f 2
              else exception_response u f 3
         else exception_response u f 4).
Proof.
  intros Hu Hf Hsh Hsl Hqh Hql Hcl Hch.
  unfold handle0x10Request.
  change (refactor0x10 [u; f; sh; sl; qh; ql; cl; ch])
    with ((Num u, 0) :: (Num f, 0)
          :: [(Num sh, 1); (Num sl, 2); (Num qh, 1); (Num ql, 2)]
          ++ [(Num cl, 0); (Num ch, 1)]).
  rewrite parsePDU_frame.
  cbn [parse_fields fst snd Z.eqb Pos.eqb bind app map].
  rewrite !join_hi_lo by assumption.
  unfold validateCRC_16.
  change [Num u; Num f; Num sh; Num sl; Num qh; Num ql]
    with (map Num [u; f; sh; sl; qh; ql]).
  assert (Hb : Forall is_byte [u; f; sh; sl; qh; ql]).
  { repeat (constructor; [assumption|]). constructor. }
  destruct (crc_of_word _ Hb) as [-> _]. cbn [Js.strict_eq].
  destruct (_ =? ch * 256 + cl).
  2:{ rewrite makeError_frame by (assumption || (unfold is_byte; lia)). reflexivity. }
  cbn [data]. unfold out_of_range. rewrite !getv_0, !getv_1.
  cbn [Js.add Js.sub Js.arith Js.gt].
  destruct ((999 <? sh * 256 + sl) || _).
  { rewrite makeError_frame by (assumption || (unfold is_byte; lia)). reflexivity. }
  cbn [Js.getv Z.ltb Z.compare Z.to_nat Pos.to_nat Pos.iter_op Nat.add nth_error
       Js.strict_neq_half].
  rewrite makeError_frame by (assumption || (unfold is_byte; lia)). reflexivity.
Qed.

Lemma write_frame_shapes r :
  Forall is_byte r -> nth_error r 1 = Some 0x10 ->
  (length r <= 7)%nat
  \/ (exists u sh sl qh ql cl ch,
        r = [u; 0x10; sh; sl; qh; ql; cl; ch]
        /\ is_byte u /\ is_byte sh /\ is_byte sl /\ is_byte qh /\ is_byte ql
        /\ is_byte cl /\ is_byte ch)
  \/ (exists u start qty bc ws cl ch,
        r = write_request u start qty bc (word_bytes ws) ++ [cl; ch]
        /\ is_byte u /\ is_word start /\ is_word qty /\ is_byte bc
        /\ Forall is_word ws /\ is_byte cl /\ is_byte ch)
  \/ (exists u sh sl qh ql bc ws x cl ch,
        r = [u; 0x10; sh; sl; qh; ql; bc] ++ word_bytes ws ++ [x; cl; ch]).
Proof.
  intros Hr H1.
  destruct r as [|u [|f [|sh [|sl [|qh [|ql [|b6 [|b7 rest]]]]]]]];
    try (left; cbn [length]; lia).
  right. cbn [nth_error] in H1. injection H1 as ->.
  repeat match goal with
         | H : Forall is_byte (_ :: _) |- _ =>
             let Hx := fresh "Hb" in
             let Hl := fresh "Hl" in
             inversion H as [|? ? Hx Hl]; subst; clear H
         end.
  destruct rest as [|b8 rest].
  - left. exists u, sh, sl, qh, ql, b6, b7.
    split; [reflexivity|]. repeat (split; [assumption|]). assumption.
  - right.
    destruct (last_two (b7 :: b8 :: rest)) as (payload & cl & ch & E);
      [cbn [length]; lia|].
    assert (Hall : Forall is_byte (payload ++ [cl; ch])).
    { rewrite <- E. constructor; assumption. }
    apply Forall_app in Hall. destruct Hall as [Hp Hc].
    inversion Hc as [|? ? Hcl Hc']; subst. inversion Hc' as [|? ? Hch _]; subst.
    destruct (bytes_as_words payload Hp) as (ws & Hws & [Ep|(x & Hx & Ep)]).
    + left. exists u, (sh * 256 + sl), (qh * 256 + ql), b6, ws, cl, ch.
      split.
      { unfold write_request. rewrite !hi_lo_join by assumption.
        cbn [app]. rewrite E, Ep. reflexivity. }
      repeat (split; [first [assumption|apply join_is_word; assumption]|]).
      assumption.
    + right. exists u, sh, sl, qh, ql, b6, ws, x, cl, ch.
      cbn [app]. rewrite E, Ep, <- app_assoc. reflexivity.
Qed.

Lemma dispatch_write tags r :
  nth_error r 1 = Some 0x10 ->
  handleModbusRequest tags r = handle0x10Request tags r.
Proof.
  intros H. unfold handleModbusRequest, Js.get. rewrite H. reflexivity.
Qed.



Lemma ret_pair {A B} (a c : A) (b d : B) :
  Ret (a, b) = Ret (c, d) -> a = c /\ b = d.
Proof. intros H. injection H as -> ->. split; reflexivity. Qed.

Lemma write_outcome tags r tags' resp :
  Forall is_byte r -> nth_error r 1 = Some 0x10 ->
  handle0x10Request tags r = Ret (tags', resp) ->
  tags' = tags
  \/ exists u start bc ws cl ch,
       r = write_request u start (Z.of_nat (length ws)) bc (word_bytes ws)
           ++ [cl; ch]
       /\ is_word start /\ Forall is_word ws
       /\ start <= 999 /\ start + Z.of_nat (length ws) - 1 <= 999
       /\ tags' = store_values
                    (Num start :: Num (Z.of_nat (length ws)) :: Num bc
                     :: map Num ws) tags
       /\ resp = with_crc ([u; 0x10] ++ hi_lo start
                           ++ hi_lo (Z.of_nat (length ws))).
Proof.
  intros Hr H1 H.
  destruct (write_frame_shapes r Hr H1)
    as [Hs|[(u & sh & sl & qh & ql & cl & ch & -> & B)
           |[(u & s & q & bc & ws & cl & ch & -> & Hu & Hs & Hq & Hbc & Hws & Hcl & Hch)
            |(u & sh & sl & qh & ql & bc & ws & x & cl & ch & ->)]]].
  - rewrite short_write_throws in H by exact Hs. discriminate.
  - destruct B as (? & ? & ? & ? & ? & ? & ?).
    rewrite handle0x10_bare in H by (assumption || (unfold is_byte; lia)).
    left. apply ret_pair in H. destruct H as [<- _]. reflexivity.
  - rewrite handle0x10_frame in H by assumption.
    destruct (_ =? ch * 256 + cl); [|left; apply ret_pair in H; destruct H as [<- _]; reflexivity].
    destruct (Z.ltb_spec 999 s); cbn [orb] in H;
      [left; apply ret_pair in H; destruct H as [<- _]; reflexivity|].
    destruct (Z.ltb_spec 999 (s + q - 1)); cbn [orb] in H;
      [left; apply ret_pair in H; destruct H as [<- _]; reflexivity|].
    destruct (negb (2 * q =? bc)); [left; apply ret_pair in H; destruct H as [<- _]; reflexivity|].
    destruct (Z.eqb_spec q (Z.of_nat (length ws))) as [->|]; cbn [negb] in H;
      [|left; apply ret_pair in H; destruct H as [<- _]; reflexivity].
    right. apply ret_pair in H. destruct H as [<- <-]. exists u, s, bc, ws, cl, ch.
    repeat (split; [first [reflexivity|assumption]|]). reflexivity.
  - rewrite odd_payload_throws in H. discriminate.
Qed.

Lemma other_function_outcome tags r tags' resp :
  nth_error r 1 <> Some 0x10 ->
  handleModbusRequest tags r = Ret (tags', resp) -> tags' = tags.
Proof.
  intros H1 H.
  destruct (dispatcher_answers_other_functions tags r) as (resp' & E).
  - unfold Js.get. destruct (nth_error r 1); congruence.
  - rewrite E in H. apply ret_pair in H. destruct H as [<- _]. reflexivity.
Qed.

Lemma function_code_cases (r : list Z) :
  nth_error r 1 = Some 0x10 \/ nth_error r 1 <> Some 0x10.
Proof.
  destruct (nth_error r 1) as [f|]; [|right; discriminate].
  destruct (Z.eq_dec f 0x10) as [->|]; [left; reflexivity|right; congruence].
Qed.

Lemma register_bank_store tags start bc ws :
  register_bank tags -> is_word start -> Forall is_word ws ->
  start + Z.of_nat (length ws) - 1 <= 999 ->
  register_bank
    (store_values (Num start :: Num (Z.of_nat (length ws)) :: Num bc
                   :: map Num ws) tags).
Proof.
  intros [Hlen Hall] Hs Hws Hend. unfold is_word in Hs.
  rewrite store_values_bank by lia. split.
  - rewrite !length_app, length_map, length_firstn, length_skipn. lia.
  - apply Forall_app. split; [apply Forall_firstn, Hall|].
    apply Forall_app. split; [|apply Forall_skipn, Hall].
    apply Forall_map. eapply Forall_impl; [|exact Hws].
    intros w Hw. exists w. split; [reflexivity|exact Hw].
Qed.

Lemma register_bank_kept
        (tags tags' : list value) (r resp : list Z) :
  Forall is_byte r -> register_bank tags ->
  handleModbusRequest tags r = Ret (tags', resp) ->
  register_bank tags'.
Proof.
  intros Hr Hbank H.
  destruct (function_code_cases r) as [H1|H1].
  - rewrite dispatch_write in H by exact H1.
    destruct (write_outcome tags r tags' resp Hr H1 H)
      as [->|(u & s & bc & ws & cl & ch & _ & Hs & Hws & _ & Hend & -> & _)];
      [exact Hbank|].
    apply register_bank_store; assumption.
  - rewrite (other_function_outcome tags r tags' resp H1 H). exact Hbank.
Qed.

(** Property X7.  Whatever frame of bytes is answered, a bank of 1000
    16-bit registers is still a bank of 1000 16-bit registers. *)
Theorem register_bank_invariant
        (tags tags' : list value) (r resp : list Z) :
  Forall is_byte r -> register_bank tags ->
  handleModbusRequest tags r = Ret (tags', resp) ->
  register_bank tags'.
Proof. apply register_bank_kept. Qed.

(** Property X8.  The bank is left as it was unless the request is a 0x10
    request answered by the echo of its first six bytes: no exception
    response and no read goes with a change of the bank. *)
Theorem bank_changes_only_with_write_echo
        (tags tags' : list value) (r resp : list Z) :
  Forall is_byte r ->
  handleModbusRequest tags r = Ret (tags', resp) ->
  tags' = tags
  \/ (nth_error r 1 = Some 0x10 /\ resp = with_crc (firstn 6 r)).
Proof.
  intros Hr H.
  destruct (function_code_cases r) as [H1|H1].
  - rewrite dispatch_write in H by exact H1.
    destruct (write_outcome tags r tags' resp Hr H1 H)
      as [->|(u & s & bc & ws & cl & ch & -> & Hs & _ & _ & _ & _ & ->)];
      [left; reflexivity|right].
    split; [exact H1|reflexivity].
  - left. exact (other_function_outcome tags r tags' resp H1 H).
Qed.

Lemma parsePDU_header c0 c1 rest d :
  parsePDU (c0 :: c1 :: rest) = Ret (Some d) ->
  slaveId d = fst c0 /\ functionId d = fst c1.
Proof.
  unfold parsePDU.
  change (cell_at (c0 :: c1 :: rest) 0) with (Ret c0).
  change (cell_at (c0 :: c1 :: rest) 1) with (Ret c1).
  cbn [bind].
  destruct (cell_at _ _); [discriminate|]. cbn [bind].
  destruct (cell_at _ _); [discriminate|]. cbn [bind].
  destruct (parse_fields _); [discriminate|]. cbn [bind].
  destruct (validateCRC_16 _ _); [|discriminate].
  intros H. injection H as <-. split; reflexivity.
Qed.

Lemma makeError_answer r code : answer_of r (makeError r code).
Proof.
  unfold answer_of, makeError. eexists _, _. split; [reflexivity|].
  right. reflexivity.
Qed.

Lemma handle0x03_answer tags r t resp :
  handle0x03Request tags r = Ret (t, resp) -> answer_of r resp.
Proof.
  unfold handle0x03Request.
  destruct (parsePDU (refactor0x03 r)) as [|[d|]] eqn:E; cbn [bind];
    [discriminate| |].
  - unfold refactor0x03 in E. apply parsePDU_header in E.
    cbn [fst] in E. destruct E as [E0 E1].
    destruct (out_of_range (data d)); intros H; apply ret_pair in H;
      destruct H as [_ <-]; [apply makeError_answer|].
    rewrite E0, E1. eexists _, _. split; [reflexivity|left; reflexivity].
  - intros H. apply ret_pair in H. destruct H as [_ <-]. apply makeError_answer.
Qed.

Lemma handle0x10_answer tags r t resp :
  handle0x10Request tags r = Ret (t, resp) -> answer_of r resp.
Proof.
  unfold handle0x10Request.
  destruct (parsePDU (refactor0x10 r)) as [|[d|]] eqn:E; cbn [bind];
    [discriminate| |].
  - unfold refactor0x10 in E. cbn [app] in E. apply parsePDU_header in E.
    cbn [fst] in E. destruct E as [E0 E1].
    destruct (out_of_range (data d));
      [intros H; apply ret_pair in H; destruct H as [_ <-];
       apply makeError_answer|].
    destruct (Js.strict_neq_half _ _);
      [intros H; apply ret_pair in H; destruct H as [_ <-];
       apply makeError_answer|].
    destruct (negb _);
      [intros H; apply ret_pair in H; destruct H as [_ <-];
       apply makeError_answer|].
    intros H. apply ret_pair in H. destruct H as [_ <-].
    rewrite E0, E1. eexists _, _. split; [reflexivity|left; reflexivity].
  - intros H. apply ret_pair in H. destruct H as [_ <-]. apply makeError_answer.
Qed.

Lemma dispatcher_answer tags r t resp :
  handleModbusRequest tags r = Ret (t, resp) -> answer_of r resp.
Proof.
  unfold handleModbusRequest.
  destruct (Js.strict_eq _ _); [apply handle0x03_answer|].
  destruct (Js.strict_eq _ _); [apply handle0x10_answer|].
  intros H. apply ret_pair in H. destruct H as [_ <-]. apply makeError_answer.
Qed.

Lemma makePDU_frame_ok u f args :
  Forall is_byte (makePDU u f args)
  /\ CRC_16 (map Num (makePDU u f args)) = Num 0.
Proof.
  rewrite makePDU_clamped. split.
  - apply with_crc_bytes, clamped_bytes.
  - apply crc_residue, clamped_bytes.
Qed.

(** Property X9.  Every response to a frame that begins with the bytes
    [u] and [f] is a frame of at least four bytes whose checksum is valid,
    whose first byte is [u] and whose second byte is [f], or [f] with its
    high bit set. *)
Theorem every_response_is_a_checked_frame
        (tags t : list value) (u f : Z) (rest resp : list Z) :
  is_byte u -> is_byte f ->
  handleModbusRequest tags (u :: f :: rest) = Ret (t, resp) ->
  Forall is_byte resp
  /\ CRC_16 (map Num resp) = Num 0
  /\ (4 <= length resp)%nat
  /\ nth_error resp 0 = Some u
  /\ (nth_error resp 1 = Some f \/ nth_error resp 1 = Some (Z.lor f 0x80)).
Proof.
  intros Hu Hf H. apply dispatcher_answer in H.
  destruct H as (fn & args & -> & Hfn).
  destruct (makePDU_frame_ok (Js.get (u :: f :: rest) 0) fn args) as [Hb Hc].
  split; [exact Hb|]. split; [exact Hc|].
  rewrite makePDU_clamped. unfold with_crc. cbn [map app Js.get nth_error length].
  rewrite clamp8_byte by exact Hu.
  split; [rewrite length_app; cbn [length]; lia|].
  split; [reflexivity|].
  destruct Hfn as [->| ->]; cbn [Js.get nth_error].
  - left. rewrite clamp8_byte by exact Hf. reflexivity.
  - right. rewrite or_byte by exact Hf.
    rewrite clamp8_byte; [reflexivity|].
    apply lor_byte; [exact Hf|unfold is_byte; lia].
Qed.

(** ** Frames of unusual length *)

Lemma crc_shift_num v : exists z, crc_shift v = Num z.
Proof.
  unfold crc_shift. destruct (Js.truthy _); eexists; reflexivity.
Qed.

Lemma crc_byte_num crc m : exists z, crc_byte crc m = Num z.
Proof. unfold crc_byte. cbn [Nat.iter nat_rect]. apply crc_shift_num. Qed.

Lemma fold_crc_num m : forall crc,
  (exists z, crc = Num z) -> exists z, fold_left crc_byte m crc = Num z.
Proof.
  induction m as [|x m IH]; intros crc H; [exact H|].
  cbn [fold_left]. apply IH, crc_byte_num.
Qed.

Lemma CRC_16_num m : exists z, CRC_16 m = Num z.
Proof. apply fold_crc_num. eexists. reflexivity. Qed.

Lemma validate_NaN m : validateCRC_16 m NaN = false.
Proof.
  unfold validateCRC_16. destruct (CRC_16_num m) as [z ->]. reflexivity.
Qed.

(** A read request cut before its seventh byte has no checksum to compare
    with. *)
Lemma handle0x03_truncated tags r :
  (length r <= 6)%nat ->
  handle0x03Request tags r = Ret (tags, makeError r 4).
Proof.
  intros H. unfold handle0x03Request.
  change (refactor0x03 r)
    with ((Js.get r 0, 0) :: (Js.get r 1, 0)
          :: [ (Js.get r 2, 1); (Js.get r 3, 2);
               (Js.get r 4, 1); (Js.get r 5, 2) ]
          ++ [ (Js.get r 6, 1); (Js.get r 7, 2) ]).
  rewrite parsePDU_frame. cbn [parse_fields bind fst snd Z.eqb Pos.eqb app].
  assert (E6 : Js.get r 6 = Undefined).
  { unfold Js.get. rewrite (proj2 (nth_error_None r 6)) by lia. reflexivity. }
  rewrite E6. 
  replace (Js.add (Js.shl (Js.get r 7) 8) Undefined) with NaN
    by (unfold Js.add, Js.arith, Js.shl; reflexivity).
  rewrite validate_NaN. reflexivity.
Qed.

(** Property X10.  A 0x03 request of at most six bytes is answered with
    the exception code 4: the missing checksum byte compares unequal. *)
Theorem truncated_read_is_a_checksum_failure
        (tags : list value) (u : Z) (rest : list Z) :
  is_byte u -> (length rest <= 4)%nat ->
  handleModbusRequest tags (u :: 0x03 :: rest)
  = Ret (tags, exception_response u 0x03 4).
Proof.
  intros Hu Hlen. unfold handleModbusRequest.
  cbn [Js.get nth_error Js.strict_eq Z.eqb Pos.eqb].
  rewrite handle0x03_truncated by (cbn [length]; lia).
  rewrite makeError_frame by (assumption || (unfold is_byte; lia)).
  reflexivity.
Qed.

(** Property X11.  [handle0x03Request] reads the first eight bytes of a
    request only: what follows them changes nothing. *)
Theorem read_ignores_trailing_bytes
        (tags : list value) (b0 b1 b2 b3 b4 b5 b6 b7 : Z) (extra : list Z) :
  handle0x03Request tags ([b0; b1; b2; b3; b4; b5; b6; b7] ++ extra)
  = handle0x03Request tags [b0; b1; b2; b3; b4; b5; b6; b7].
Proof.
  unfold handle0x03Request, makeError. cbn [app].
  change (refactor0x03 (b0 :: b1 :: b2 :: b3 :: b4 :: b5 :: b6 :: b7 :: extra))
    with (refactor0x03 [b0; b1; b2; b3; b4; b5; b6; b7]).
  cbn [Js.get nth_error]. reflexivity.
Qed.

Lemma missing_eighth_byte
        (tags : list value) (b0 b1 b2 b3 b4 b5 b6 : Z) :
  handle0x03Request tags [b0; b1; b2; b3; b4; b5; b6]
  = handle0x03Request tags [b0; b1; b2; b3; b4; b5; b6; 0].
Proof.
  unfold handle0x03Request, makeError.
  change (refactor0x03 [b0; b1; b2; b3; b4; b5; b6])
    with ((Num b0, 0) :: (Num b1, 0)
          :: [(Num b2, 1); (Num b3, 2); (Num b4, 1); (Num b5, 2)]
          ++ [(Num b6, 1); (Undefined, 2)]).
  change (refactor0x03 [b0; b1; b2; b3; b4; b5; b6; 0])
    with ((Num b0, 0) :: (Num b1, 0)
          :: [(Num b2, 1); (Num b3, 2); (Num b4, 1); (Num b5, 2)]
          ++ [(Num b6, 1); (Num 0, 2)]).
  rewrite !parsePDU_frame. cbn [fst].
  change (Js.shl Undefined 8) with (Num 0).
  change (Js.shl (Num 0) 8) with (Num 0).
  cbn [Js.get nth_error]. reflexivity.
Qed.

(** Property X12.  A 0x03 request cut after the low byte of its checksum
    is handled as the whole request whenever the high byte of the checksum
    is 0: the missing byte is read as 0. *)
Theorem seven_byte_read_is_served (tags : list value) (u start qty : Z) :
  is_byte u -> is_word start -> is_word qty ->
  crc_of (read_request u start qty) < 256 ->
  handleModbusRequest tags
    (read_request u start qty ++ [crc_of (read_request u start qty)])
  = handleModbusRequest tags (with_crc (read_request u start qty)).
Proof.
  intros Hu Hs Hq Hc.
  destruct (crc_of_word _ (read_request_bytes u start qty Hu Hs Hq)) as [_ W].
  unfold is_word in W. unfold with_crc.
  rewrite Z.mod_small, Z.div_small by lia.
  unfold handleModbusRequest, read_request, hi_lo.
  cbn [app Js.get nth_error Js.strict_eq Z.eqb Pos.eqb].
  apply missing_eighth_byte.
Qed.

(** Property X13.  A 0x10 request of eight bytes, with a valid checksum
    but neither byte count nor values, is refused with the exception code 2
    when its range is out of the bank and with the exception code 3
    otherwise. *)
Theorem write_without_byte_count_is_refused
        (tags : list value) (u start qty : Z) :
  is_byte u -> is_word start -> is_word qty ->
  handleModbusRequest tags
    (with_crc ([u; 0x10] ++ hi_lo start ++ hi_lo qty))
  = Ret (tags,
         if (999 <? start) || (999 <? start + qty - 1)
         then exception_response u 0x10 2
         else exception_response u 0x10 3).
Proof.
  intros Hu Hs Hq.
  assert (Hb : Forall is_byte ([u; 0x10] ++ hi_lo start ++ hi_lo qty)).
  { apply (read_request_bytes u start qty) in Hu; try assumption.
    unfold read_request in Hu. cbn [app] in Hu |- *.
    inversion Hu as [|? ? H0 Hu']; subst. inversion Hu' as [|? ? _ Hu'']; subst.
    constructor; [exact H0|]. constructor; [unfold is_byte; lia|exact Hu'']. }
  destruct (crc_bytes _ Hb) as (Hl & Hh & Hc).
  unfold with_crc, hi_lo in *. cbn [app] in *.
  unfold handleModbusRequest. cbn [Js.get nth_error Js.strict_eq Z.eqb Pos.eqb].
  rewrite handle0x10_bare;
    try assumption; try (apply word_hi; assumption); try apply word_lo;
    try (unfold is_byte; lia).
  rewrite Hc.
  replace (start / 256 * 256 + start mod 256) with start
    by (pose proof (Z.div_mod start 256); lia).
  replace (qty / 256 * 256 + qty mod 256) with qty
    by (pose proof (Z.div_mod qty 256); lia).
  reflexivity.
Qed.

(** ** Requests and responses composed *)

Lemma decode_frame u f fs :
  is_byte u -> is_byte f -> Forall in_range fs ->
  parsePDU (annotate (map width fs) (with_crc (u :: f :: flat_map emit fs)))
  = Ret (Some (mkPdu (Num u) (Num f) (map flat_value fs))).
Proof.
  intros Hu Hf Hfs.
  assert (Hb : Forall is_byte (u :: f :: flat_map emit fs)).
  { constructor; [exact Hu|]. constructor; [exact Hf|].
    apply flat_emit_bytes, Hfs. }
  destruct (crc_bytes _ Hb) as (Hl & Hh & Hc).
  rewrite annotate_frame, parse_annotated by assumption.
  rewrite Hc. reflexivity.
Qed.

Lemma read_success (regs : list Z) (u start qty : Z) :
  is_byte u -> is_word start -> is_word qty ->
  Forall is_word regs -> length regs = 1000%nat ->
  start <= 999 -> start + qty - 1 <= 999 -> qty <= 127 ->
  handle0x03Request (map Num regs) (with_crc (read_request u start qty))
  = Ret (map Num regs,
         read_response u qty
           (firstn (Z.to_nat qty) (skipn (Z.to_nat start) regs))).
Proof.
  intros Hu Hs Hq Hregs Hlen Hs999 Hend Hq127.
  assert (Hs0 : 0 <= start) by (unfold is_word in Hs; lia).
  assert (Hq0 : 0 <= qty) by (unfold is_word in Hq; lia).
  pose proof (read_request_bytes u start qty Hu Hs Hq) as Hb.
  destruct (crc_bytes _ Hb) as (Hl & Hh & Hc).
  unfold with_crc at 1. rewrite handle0x03_frame by assumption.
  rewrite Hc.
  destruct (Z.ltb_spec 999 start); [lia|].
  destruct (Z.ltb_spec 999 (start + qty - 1)); [lia|].
  cbn [orb]. f_equal. f_equal.
  rewrite slice_map, slice_range by lia.
  replace (start + qty - start) with qty by lia.
  apply read_success_bytes; try assumption; try lia.
  apply Forall_firstn, Forall_skipn, Hregs.
Qed.

(** Property X14.  The success response to a read, labelled as one byte
    count and [quantity] two-byte values, is parsed by [parsePDU] into the
    unit id, the function 0x03, the byte count and the registers read. *)
Theorem read_response_decodes (regs : list Z) (u start qty : Z) :
  is_byte u -> is_word start -> is_word qty ->
  Forall is_word regs -> length regs = 1000%nat ->
  start <= 999 -> start + qty - 1 <= 999 -> qty <= 127 ->
  let values := firstn (Z.to_nat qty) (skipn (Z.to_nat start) regs) in
  exists response,
    handle0x03Request (map Num regs) (with_crc (read_request u start qty))
    = Ret (map Num regs, response)
    /\ parsePDU (annotate (1 :: map (fun _ => 2) values) response)
       = Ret (Some (mkPdu (Num u) (Num 0x03)
                      (Num (2 * qty) :: map Num values))).
Proof.
  intros Hu Hs Hq Hregs Hlen Hs999 Hend Hq127 values.
  exists (read_response u qty values). split.
  - apply read_success; assumption.
  - unfold read_response. cbn [app].
    rewrite <- emit_words.
    change (2 * qty :: flat_map emit (map Word2 values))
      with (flat_map emit (Byte1 (2 * qty) :: map Word2 values)).
    replace (1 :: map (fun _ => 2) values)
      with (map width (Byte1 (2 * qty) :: map Word2 values))
      by (cbn [map width]; rewrite map_map; reflexivity).
    rewrite decode_frame.
    + cbn [map flat_value]. rewrite flat_value_words. reflexivity.
    + exact Hu.
    + unfold is_byte. lia.
    + constructor.
      * unfold in_range, is_byte. unfold is_word in Hq. lia.
      * apply words_in_range, Forall_firstn, Forall_skipn, Hregs.
Qed.

Lemma firstn_prefix {A} (pre rest : list A) n :
  length pre = n -> firstn n (pre ++ rest) = pre.
Proof. intros <-. apply firstn_exact. Qed.

Lemma skipn_prefix {A} (pre rest : list A) n :
  length pre = n -> skipn n (pre ++ rest) = rest.
Proof. intros <-. apply skipn_exact. Qed.

(** Property X15.  After a valid write, a second valid write to the same
    range gives the bank and the response it would have given without the
    first one. *)
Theorem later_write_overrides
        (tags : list value) (u1 u2 start : Z) (ws1 ws2 : list Z) :
  is_byte u1 -> is_byte u2 -> is_word start ->
  Forall is_word ws1 -> Forall is_word ws2 ->
  length ws1 = length ws2 ->
  length tags = 1000%nat ->
  start <= 999 -> start + Z.of_nat (length ws1) - 1 <= 999 ->
  Z.of_nat (length ws1) <= 127 ->
  let qty := Z.of_nat (length ws1) in
  let request ws u :=
    with_crc (write_request u start qty (qty * 2) (word_bytes ws)) in
  exists tags1 response1,
    handle0x10Request tags (request ws1 u1) = Ret (tags1, response1)
    /\ handle0x10Request tags1 (request ws2 u2)
       = handle0x10Request tags (request ws2 u2).
Proof.
  intros Hu1 Hu2 Hs Hws1 Hws2 Hlen2 Hlen Hs999 Hend H127 qty request.
  assert (Hq : is_word qty) by (unfold is_word, qty; lia).
  assert (Hbc : is_byte (qty * 2)) by (unfold is_byte, qty; lia).
  assert (Hs0 : 0 <= start) by (unfold is_word in Hs; lia).
  assert (Hrun : forall t u ws,
             is_byte u -> Forall is_word ws -> length ws = length ws1 ->
             length t = 1000%nat ->
             handle0x10Request t (request ws u)
             = Ret (firstn (Z.to_nat start) t ++ map Num ws
                      ++ skipn (Z.to_nat start + length ws) t,
                    with_crc ([u; 0x10] ++ hi_lo start ++ hi_lo qty))).
  { intros t u ws Hu Hws Hl Ht. unfold request.
    pose proof (write_request_bytes u start qty (qty * 2) ws Hu Hs Hq Hbc Hws)
      as Hb.
    destruct (crc_bytes _ Hb) as (Hl' & Hh' & Hc).
    unfold with_crc at 1. rewrite handle0x10_frame by assumption.
    rewrite Hc.
    destruct (Z.ltb_spec 999 start); [lia|].
    destruct (Z.ltb_spec 999 (start + qty - 1)); [unfold qty in *; lia|].
    cbn [orb]. rewrite (proj2 (Z.eqb_eq (2 * qty) (qty * 2))) by lia.
    rewrite (proj2 (Z.eqb_eq qty (Z.of_nat (length ws))))
      by (unfold qty; lia).
    cbn [negb]. unfold qty at 1. rewrite <- Hl.
    rewrite store_values_bank by lia. reflexivity. }
  eexists _, _. split; [apply Hrun; [assumption..|reflexivity|assumption]|].
  set (pre := firstn (Z.to_nat start) tags).
  set (post := skipn (Z.to_nat start + length ws1) tags).
  assert (Hpre : length pre = Z.to_nat start).
  { unfold pre. rewrite length_firstn. lia. }
  assert (Hpost : length post = (1000 - (Z.to_nat start + length ws1))%nat).
  { unfold post. rewrite length_skipn. lia. }
  rewrite !Hrun; try assumption; try (symmetry; assumption).
  2:{ rewrite !length_app, length_map, Hpre, Hpost. lia. }
  f_equal. f_equal. f_equal.
  - rewrite firstn_prefix by exact Hpre. reflexivity.
  - f_equal. rewrite <- Hlen2. fold post.
    rewrite app_assoc. apply skipn_prefix.
    rewrite length_app, length_map, Hpre. reflexivity.
Qed.

(** ** The log lines *)

Lemma byte_in_range b : is_byte b -> In b (map Z.of_nat (seq 0 256)).
Proof.
  unfold is_byte. intros H. apply in_map_iff. exists (Z.to_nat b).
  split; [lia|]. apply in_seq. lia.
Qed.

Lemma all_bytes_render :
  forallb (fun b => two_digits_of b (toHexString b)) (map Z.of_nat (seq 0 256))
  = true.
Proof. vm_compute. reflexivity. Qed.

Lemma toHexString_two_digits b :
  is_byte b -> two_digits_of b (toHexString b) = true.
Proof.
  intros H. exact (proj1 (forallb_forall _ _) all_bytes_render b (byte_in_range b H)).
Qed.

(** Property X16.  [toHexString] renders a byte as exactly two digits
    among 0-9 and A-F, which stand for the byte. *)
Theorem toHexString_byte (b : Z) :
  is_byte b ->
  exists c1 c0,
    toHexString b = String.String c1 (String.String c0 String.EmptyString)
    /\ 0 <= hex_value c1 < 16 /\ 0 <= hex_value c0 < 16
    /\ 16 * hex_value c1 + hex_value c0 = b.
Proof.
  intros H. pose proof (toHexString_two_digits b H) as E.
  unfold two_digits_of in E.
  destruct (toHexString b) as [|c1 [|c0 [|]]]; try discriminate.
  exists c1, c0. split; [reflexivity|].
  apply andb_prop in E. destruct E as [E E3].
  apply andb_prop in E. destruct E as [E1 E2].
  apply Z.leb_le in E1, E2. apply Z.eqb_eq in E3.
  assert (Hv : forall c, hex_value c < 16).
  { intros c. unfold hex_value.
    set (n := Z.of_nat (Ascii.nat_of_ascii c)).
    destruct (Z.leb_spec 48 n), (Z.leb_spec n 57), (Z.leb_spec 65 n),
      (Z.leb_spec n 70); cbn [andb]; lia. }
  pose proof (Hv c1). pose proof (Hv c0). lia.
Qed.

Lemma toHexString_injective a b :
  is_byte a -> is_byte b -> toHexString a = toHexString b -> a = b.
Proof.
  intros Ha Hb E.
  pose proof (toHexString_two_digits a Ha) as Ea.
  pose proof (toHexString_two_digits b Hb) as Eb.
  rewrite E in Ea. unfold two_digits_of in Ea, Eb.
  destruct (toHexString b) as [|c1 [|c0 [|]]]; try discriminate.
  apply andb_prop in Ea, Eb. destruct Ea as [_ Ea], Eb as [_ Eb].
  apply Z.eqb_eq in Ea, Eb. lia.
Qed.

Lemma dump_cons b rest :
  is_byte b ->
  exists c1 c0,
    toHexString b = String.String c1 (String.String c0 String.EmptyString)
    /\ dump (b :: rest)
       = String.String c1
           (String.String c0
              (match rest with
               | [] => String.EmptyString
               | _ :: _ => String.String " "%char (dump rest)
               end)).
Proof.
  intros H. pose proof (toHexString_two_digits b H) as E.
  unfold two_digits_of in E.
  destruct (toHexString b) as [|c1 [|c0 [|]]] eqn:Eh; try discriminate.
  exists c1, c0. split; [reflexivity|].
  unfold dump, Uint8ClampedArrayToHexStringArray. cbn [map Hex.join].
  rewrite Eh. destruct rest; reflexivity.
Qed.

(** Property X17.  The text the handlers log for a frame, its bytes in
    hexadecimal joined by spaces, determines the frame. *)
Theorem dump_determines_frame (f1 f2 : list Z) :
  Forall is_byte f1 -> Forall is_byte f2 ->
  dump f1 = dump f2 -> f1 = f2.
Proof.
  intros H1. revert f2.
  induction H1 as [|a f1 Ha _ IH]; intros f2 H2 E.
  - destruct H2 as [|b f2 Hb _]; [reflexivity|].
    destruct (dump_cons b f2 Hb) as (c1 & c0 & _ & Eb).
    rewrite Eb in E. discriminate.
  - destruct H2 as [|b f2 Hb H2].
    + destruct (dump_cons a f1 Ha) as (c1 & c0 & _ & Ea).
      rewrite Ea in E. discriminate.
    + destruct (dump_cons a f1 Ha) as (a1 & a0 & Eha & Ea).
      destruct (dump_cons b f2 Hb) as (b1 & b0 & Ehb & Eb).
      rewrite Ea, Eb in E. injection E as E1 E0 Er.
      assert (a = b).
      { apply toHexString_injective; try assumption.
        rewrite Eha, Ehb, E1, E0. reflexivity. }
      subst b. f_equal.
      destruct f1 as [|x f1], f2 as [|y f2]; try discriminate; [reflexivity|].
      injection Er as Er. apply IH; assumption.
Qed.

(** ** What a request logs and saves *)

Lemma handle0x03_traced_outcome tags r :
  snd (handle0x03Request_traced tags r) = handle0x03Request tags r.
Proof.
  unfold handle0x03Request_traced, handle0x03Request, refuse.
  destruct (parsePDU (refactor0x03 r)) as [|[d|]]; cbn [bind snd];
    [reflexivity| |reflexivity].
  destruct (out_of_range (data d)); reflexivity.
Qed.

Lemma handle0x10_traced_outcome tags r :
  snd (handle0x10Request_traced tags r) = handle0x10Request tags r.
Proof.
  unfold handle0x10Request_traced, handle0x10Request, refuse.
  destruct (parsePDU (refactor0x10 r)) as [|[d|]]; cbn [bind snd];
    [reflexivity| |reflexivity].
  destruct (out_of_range (data d)); [reflexivity|].
  destruct (Js.strict_neq_half _ _); [reflexivity|].
  destruct (negb _); reflexivity.
Qed.

Lemma traced_outcome tags r :
  snd (handleModbusRequest_traced tags r) = handleModbusRequest tags r.
Proof.
  unfold handleModbusRequest_traced, handleModbusRequest.
  destruct (Js.strict_eq _ _); [apply handle0x03_traced_outcome|].
  destruct (Js.strict_eq _ _); [apply handle0x10_traced_outcome|reflexivity].
Qed.

Lemma handle0x03_saves tags r :
  saves (fst (handle0x03Request_traced tags r)) = []
  /\ forall t resp, snd (handle0x03Request_traced tags r) = Ret (t, resp) ->
                    t = tags.
Proof.
  unfold handle0x03Request_traced, refuse.
  destruct (parsePDU (refactor0x03 r)) as [|[d|]]; cbn [fst snd].
  - split; [reflexivity|discriminate].
  - destruct (out_of_range (data d)); cbn [fst snd]; (split; [reflexivity|]);
      intros t resp H; apply ret_pair in H; destruct H as [<- _]; reflexivity.
  - split; [reflexivity|].
    intros t resp H; apply ret_pair in H; destruct H as [<- _]; reflexivity.
Qed.

Lemma handle0x10_saves tags r :
  match snd (handle0x10Request_traced tags r) with
  | Throw => saves (fst (handle0x10Request_traced tags r)) = []
  | Ret (t, _) =>
      (saves (fst (handle0x10Request_traced tags r)) = [] /\ t = tags)
      \/ saves (fst (handle0x10Request_traced tags r)) = [t]
  end.
Proof.
  unfold handle0x10Request_traced, refuse.
  destruct (parsePDU (refactor0x10 r)) as [|[d|]]; cbn [fst snd];
    [reflexivity| |left; split; reflexivity].
  destruct (out_of_range (data d)); cbn [fst snd];
    [left; split; reflexivity|].
  destruct (Js.strict_neq_half _ _); cbn [fst snd];
    [left; split; reflexivity|].
  destruct (negb _); cbn [fst snd]; [left; split; reflexivity|].
  right. reflexivity.
Qed.

Lemma saves_follow_bank (tags : list value) (r : list Z) :
  match snd (handleModbusRequest_traced tags r) with
  | Throw => saves (fst (handleModbusRequest_traced tags r)) = []
  | Ret (tags', _) =>
      (saves (fst (handleModbusRequest_traced tags r)) = [] /\ tags' = tags)
      \/ saves (fst (handleModbusRequest_traced tags r)) = [tags']
  end.
Proof.
  unfold handleModbusRequest_traced.
  destruct (Js.strict_eq _ _).
  - destruct (handle0x03_saves tags r) as [Hs Ht].
    destruct (snd (handle0x03Request_traced tags r)) as [|[t resp]] eqn:E;
      [exact Hs|].
    left. split; [exact Hs|]. exact (Ht t resp eq_refl).
  - destruct (Js.strict_eq _ _); [apply handle0x10_saves|].
    cbn [fst snd]. left. split; reflexivity.
Qed.

(** Property X18.  A request that makes the handler throw saves nothing;
    an answered request either saves nothing and leaves the bank as it was,
    or saves once, and what it saves is the bank it leaves. *)
Theorem tags_file_follows_bank
        (tags : list value) (r : list Z)
        (events : list event) (outcome : result reply) :
  handleModbusRequest_traced tags r = (events, outcome) ->
  match outcome with
  | Throw => saves events = []
  | Ret (tags', _) =>
      (saves events = [] /\ tags' = tags) \/ saves events = [tags']
  end.
Proof.
  intros H. pose proof (saves_follow_bank tags r) as L.
  rewrite H in L. exact L.
Qed.

Lemma refuse_framed tags r reason code :
  framed r (fst (refuse tags r reason code)) (snd (refuse tags r reason code)).
Proof. unfold refuse, framed. cbn [fst snd]. exists [Log reason]. reflexivity. Qed.

Lemma handle0x03_framed tags r :
  framed r (fst (handle0x03Request_traced tags r))
           (snd (handle0x03Request_traced tags r)).
Proof.
  unfold handle0x03Request_traced.
  destruct (parsePDU (refactor0x03 r)) as [|[d|]].
  - reflexivity.
  - destruct (out_of_range (data d)); [apply refuse_framed|].
    cbn [fst snd framed]. exists []. reflexivity.
  - apply refuse_framed.
Qed.

Lemma handle0x10_framed tags r :
  framed r (fst (handle0x10Request_traced tags r))
           (snd (handle0x10Request_traced tags r)).
Proof.
  unfold handle0x10Request_traced.
  destruct (parsePDU (refactor0x10 r)) as [|[d|]].
  - reflexivity.
  - destruct (out_of_range (data d)); [apply refuse_framed|].
    destruct (Js.strict_neq_half _ _); [apply refuse_framed|].
    destruct (negb _); [apply refuse_framed|].
    cbn [fst snd framed]. eexists [_]. reflexivity.
  - apply refuse_framed.
Qed.

(** Property X19.  A request of another function than 0x03 and 0x10 logs
    nothing.  A 0x03 or 0x10 request logs its own bytes first and, when it
    is answered, the bytes of the response last; when the handler throws,
    the request line is all that is logged. *)
Theorem journal_of_a_request
        (tags : list value) (r : list Z)
        (events : list event) (outcome : result reply) :
  handleModbusRequest_traced tags r = (events, outcome) ->
  (Js.strict_eq (Js.get r 1) (Num 0x03) = false ->
   Js.strict_eq (Js.get r 1) (Num 0x10) = false ->
   events = [])
  /\ (Js.strict_eq (Js.get r 1) (Num 0x03) = true
      \/ Js.strict_eq (Js.get r 1) (Num 0x10) = true ->
      framed r events outcome).
Proof.
  intros H.
  assert (He : events = fst (handleModbusRequest_traced tags r))
    by (rewrite H; reflexivity).
  assert (Ho : outcome = snd (handleModbusRequest_traced tags r))
    by (rewrite H; reflexivity).
  clear H. subst events outcome. unfold handleModbusRequest_traced. split.
  - intros -> ->. reflexivity.
  - intros Hf. destruct (Js.strict_eq (Js.get r 1) (Num 0x03));
      [apply handle0x03_framed|].
    destruct (Js.strict_eq (Js.get r 1) (Num 0x10));
      [apply handle0x10_framed|].
    destruct Hf; discriminate.
Qed.

(** ** The server over a sequence of frames *)

Lemma last_nonempty {A} (x : A) l : forall d d', last (x :: l) d = last (x :: l) d'.
Proof.
  revert x. induction l as [|y l IH]; intros x d d'; [reflexivity|].
  cbn [last]. apply (IH y).
Qed.

Lemma last_cons {A} (a : A) l d : last (a :: l) d = last l a.
Proof.
  destruct l as [|x l]; [reflexivity|].
  cbn [last]. apply last_nonempty.
Qed.

Lemma record_bank events : forall s,
  bank (fold_left record events s) = bank s
  /\ sent (fold_left record events s) = sent s
  /\ tags_file (fold_left record events s)
     = last (map Some (saves events)) (tags_file s).
Proof.
  induction events as [|e events IH]; intros s; [repeat split|].
  cbn [fold_left]. destruct (IH (record s e)) as (Eb & Es & Ef).
  rewrite Eb, Es, Ef. destruct e as [m|saved]; cbn [record bank sent tags_file].
  - repeat split.
  - repeat split. cbn [saves flat_map app map]. fold (saves events).
    symmetry. apply last_cons.
Qed.

Lemma receive_addressed id s r :
  Js.strict_eq (Js.get r 0) id = true ->
  receive id s r
  = match handleModbusRequest (bank s) r with
    | Throw => None
    | Ret (tags', response) =>
        Some (mkServer tags'
                (last (map Some (saves (fst (handleModbusRequest_traced
                                               (bank s) r))))
                      (tags_file s))
                (response :: sent s))
    end.
Proof.
  intros H. unfold receive. rewrite H.
  rewrite <- traced_outcome.
  destruct (handleModbusRequest_traced (bank s) r) as [events outcome].
  cbn [fst snd]. destruct (record_bank events s) as (_ & Es & Ef).
  rewrite Es, Ef. reflexivity.
Qed.

Lemma receive_keeps id s r s' :
  Forall is_byte r ->
  register_bank (bank s) -> tags_file s = Some (bank s) ->
  receive id s r = Some s' ->
  register_bank (bank s') /\ tags_file s' = Some (bank s')
  /\ sent s' = (if Js.strict_eq (Js.get r 0) id
                then firstn 1 (sent s') else []) ++ sent s.
Proof.
  intros Hr Hb Hf H.
  destruct (Js.strict_eq (Js.get r 0) id) eqn:Ea.
  - rewrite receive_addressed in H by exact Ea.
    pose proof (saves_follow_bank (bank s) r) as Hsave.
    rewrite traced_outcome in Hsave.
    destruct (handleModbusRequest (bank s) r) as [|[t resp]] eqn:E;
      [discriminate|].
    injection H as <-. cbn [bank tags_file sent firstn app].
    split; [exact (register_bank_kept _ _ _ _ Hr Hb E)|].
    split; [|reflexivity].
    destruct Hsave as [[-> ->]| ->]; [exact Hf|reflexivity].
  - unfold receive in H. rewrite Ea in H. injection H as <-.
    split; [exact Hb|]. split; [exact Hf|reflexivity].
Qed.

Lemma serve_keeps id requests : forall s s',
  Forall (Forall is_byte) requests ->
  register_bank (bank s) -> tags_file s = Some (bank s) ->
  serve id s requests = Some s' ->
  register_bank (bank s') /\ tags_file s' = Some (bank s')
  /\ length (sent s') = (length (addressed id requests) + length (sent s))%nat.
Proof.
  induction requests as [|r requests IH]; intros s s' Hall Hb Hf H.
  - injection H as <-. split; [exact Hb|]. split; [exact Hf|reflexivity].
  - inversion Hall as [|? ? Hr Hrest]; subst.
    cbn [serve] in H. destruct (receive id s r) as [s1|] eqn:E1; [|discriminate].
    destruct (receive_keeps id s r s1 Hr Hb Hf E1) as (Hb1 & Hf1 & Hs1).
    destruct (IH s1 s' Hrest Hb1 Hf1 H) as (Hb' & Hf' & Hs').
    split; [exact Hb'|]. split; [exact Hf'|].
    rewrite Hs'. unfold addressed. cbn [filter]. fold (addressed id requests).
    rewrite Hs1 at 1. rewrite length_app.
    destruct (Js.strict_eq (Js.get r 0) id) eqn:Ea; cbn [length]; [|lia].
    unfold receive in E1. rewrite Ea in E1.
    destruct (handleModbusRequest_traced (bank s) r) as [events [|[t resp]]];
      [discriminate|].
    injection E1 as <-. cbn [sent firstn length]. lia.
Qed.

Lemma boot_consistent file :
  tags_file (boot file) = Some (bank (boot file))
  /\ sent (boot file) = []
  /\ bank (boot file) = match file with
                        | Some b => b
                        | None => default_tags
                        end.
Proof. destruct file; repeat split. Qed.

Lemma default_tags_bank : register_bank default_tags.
Proof.
  split; [apply repeat_length|].
  apply Forall_forall. intros v Hv. apply repeat_spec in Hv. subst v.
  exists 0. split; [reflexivity|unfold is_word; lia].
Qed.

(** Property X20.  Started without a tags file, or with one that holds
    1000 16-bit values, the server keeps, as long as no handler throws, a
    bank of 1000 16-bit registers, a tags file equal to the bank, and has
    written exactly one frame per frame addressed to its unit. *)
Theorem server_keeps_bank_and_file
        (id : value) (file : option (list value))
        (requests : list (list Z)) (s' : server) :
  match file with
  | Some b => register_bank b
  | None => True
  end ->
  Forall (Forall is_byte) requests ->
  serve id (boot file) requests = Some s' ->
  register_bank (bank s')
  /\ tags_file s' = Some (bank s')
  /\ length (sent s') = length (addressed id requests).
Proof.
  intros Hfile Hall H.
  destruct (boot_consistent file) as (Hf & Hs & Hb).
  destruct (serve_keeps id requests (boot file) s' Hall) as (H1 & H2 & H3);
    try assumption.
  - rewrite Hb. destruct file; [exact Hfile|apply default_tags_bank].
  - rewrite Hs in H3. cbn [length] in H3.
    split; [exact H1|]. split; [exact H2|lia].
Qed.



(** ** The table of the web view *)

Lemma value_cell_shown tags i :
  shown (value_cell tags (Z.of_nat i))
  = match nth_error tags i with
    | Some v => [v]
    | None => []
    end.
Proof.
  unfold value_cell.
  destruct (Z.ltb_spec (Z.of_nat i) (Z.of_nat (length tags))) as [H|H].
  - cbn [shown]. rewrite getv_nth by lia. rewrite Nat2Z.id.
    destruct (nth_error tags i) eqn:E; [reflexivity|].
    apply nth_error_None in E. lia.
  - cbn [shown]. rewrite (proj2 (nth_error_None tags i)) by lia. reflexivity.
Qed.

Lemma shown_from tags : forall n a,
  flat_map (fun i => shown (value_cell tags (Z.of_nat i))) (seq a n)
  = firstn n (skipn a tags).
Proof.
  induction n as [|n IH]; intros a; [reflexivity|].
  cbn [seq flat_map]. rewrite value_cell_shown, IH.
  destruct (nth_error tags a) as [v|] eqn:E.
  - apply nth_error_split in E. destruct E as (l1 & l2 & -> & <-).
    rewrite skipn_exact.
    replace (S (length l1)) with (length (l1 ++ [v]))
      by (rewrite length_app; cbn [length]; lia).
    replace (l1 ++ v :: l2) with ((l1 ++ [v]) ++ l2)
      by (rewrite <- app_assoc; reflexivity).
    rewrite skipn_exact. reflexivity.
  - apply nth_error_None in E.
    rewrite !skipn_all2 by lia. rewrite !firstn_nil. reflexivity.
Qed.

Lemma seq_add n : forall a s, map (fun k => (s + k)%nat) (seq a n) = seq (s + a) n.
Proof.
  induction n as [|n IH]; intros a s; [reflexivity|].
  cbn [seq map]. rewrite IH. f_equal. f_equal. lia.
Qed.

Lemma flat_map_map {A B C} (f : B -> list C) (g : A -> B) l :
  flat_map f (map g l) = flat_map (fun x => f (g x)) l.
Proof. induction l as [|x l IH]; cbn [map flat_map]; [|rewrite IH]; reflexivity. Qed.

Lemma row_shows tags row :
  flat_map shown (cells (body_row tags (Z.of_nat row)))
  = firstn 10 (skipn (row * 10) tags).
Proof.
  unfold body_row. cbn [cells].
  rewrite !flat_map_map.
  rewrite <- (shown_from tags 10 (row * 10)).
  replace (seq (row * 10) 10) with (map (fun k => (row * 10 + k)%nat) (seq 0 10))
    by (rewrite seq_add; f_equal; lia).
  rewrite flat_map_map.
  apply flat_map_ext. intros k. f_equal. f_equal. lia.
Qed.

Lemma chunks {A} : forall m (l : list A),
  (length l <= m * 10)%nat ->
  flat_map (fun k => firstn 10 (skipn (k * 10) l)) (seq 0 m) = l.
Proof.
  induction m as [|m IH]; intros l H.
  - destruct l; [reflexivity|cbn [length] in H; lia].
  - rewrite <- cons_seq, <- seq_shift. cbn [flat_map].
    rewrite flat_map_map.
    rewrite (flat_map_ext _ (fun k => firstn 10 (skipn (k * 10) (skipn 10 l)))).
    2:{ intros k. rewrite skipn_skipn. f_equal. f_equal. lia. }
    rewrite IH by (rewrite length_skipn; lia).
    cbn [Nat.mul skipn]. apply firstn_skipn.
Qed.

Lemma rows_cover n :
  (Z.to_nat (rowsCount (Z.of_nat n)) * 10 >= n)%nat
  /\ (Z.to_nat (rowsCount (Z.of_nat n)) * 10 < n + 10)%nat.
Proof.
  unfold rowsCount.
  pose proof (Z.div_mod (Z.of_nat n + 9) 10).
  pose proof (Z.mod_pos_bound (Z.of_nat n + 9) 10).
  assert (0 <= (Z.of_nat n + 9) / 10) by (apply Z.div_pos; lia).
  lia.
Qed.

(** Property X22.  The table has one row per started group of ten
    registers, every row has ten value cells, and the cells that are not
    dashes, read row by row, are the registers in order: none is missing,
    none is repeated. *)
Theorem table_shows_every_register_once (tags : list value) :
  length (updateUI tags)
  = Z.to_nat ((Z.of_nat (length tags) + 9) / 10)
  /\ Forall (fun row => length (cells row) = 10%nat) (updateUI tags)
  /\ flat_map (fun row => flat_map shown (cells row)) (updateUI tags) = tags.
Proof.
  unfold updateUI. split; [rewrite !length_map, length_seq; reflexivity|].
  split.
  - apply Forall_forall. intros row Hin.
    apply in_map_iff in Hin. destruct Hin as (k & <- & _).
    unfold body_row. cbn [cells]. rewrite !length_map, length_seq. reflexivity.
  - rewrite !flat_map_map.
    rewrite (flat_map_ext _ (fun k => firstn 10 (skipn (k * 10) tags)))
      by (intros k; apply row_shows).
    apply chunks. apply rows_cover.
Qed.

(** Property X23.  The label of a row names the registers the row shows:
    it starts at a multiple of ten within the bank, ends within the bank,
    and spans as many indices as the row has cells that are not dashes. *)
Theorem row_label_names_the_shown_registers
        (tags : list value) (row : table_row) :
  In row (updateUI tags) ->
  0 <= startIndex row <= endIndex row
  /\ endIndex row < Z.of_nat (length tags)
  /\ startIndex row mod 10 = 0
  /\ Z.of_nat (length (flat_map shown (cells row)))
     = endIndex row - startIndex row + 1.
Proof.
  unfold updateUI. intros Hin.
  apply in_map_iff in Hin. destruct Hin as (z & <- & Hz).
  apply in_map_iff in Hz. destruct Hz as (k & <- & Hk).
  apply in_seq in Hk. destruct (rows_cover (length tags)) as [_ Hup].
  rewrite row_shows, length_firstn, length_skipn.
  unfold body_row. cbn [startIndex endIndex].
  rewrite Z_mod_mult. lia.
Qed.

(** ** Instances of the further properties *)

Lemma checksum_of_complete_frame_is_zero_witness :
  CRC_16 (map Num (with_crc [1; 0x03; 0; 0; 0; 10])) = Num 0.
Proof.
  apply (checksum_of_complete_frame_is_zero [1; 0x03; 0; 0; 0; 10]).
  in_range_list.
Defined.

Lemma single_byte_corruption_detected_witness :
  validateCRC_16 (map Num ([1; 0x03] ++ 0 :: [0; 0; 10]))
                 (CRC_16 (map Num ([1; 0x03] ++ 1 :: [0; 0; 10])))
  = false.
Proof.
  apply (single_byte_corruption_detected [1; 0x03] [0; 0; 10] 0 1).
  - in_range_list.
  - in_range_list.
  - in_range_value.
  - in_range_value.
  - discriminate.
Defined.


Lemma register_bank_invariant_witness :
  register_bank (Num 10 :: Num 20 :: Num 30 :: repeat (Num 0) 997).
Proof.
  apply (register_bank_invariant default_tags
           (Num 10 :: Num 20 :: Num 30 :: repeat (Num 0) 997)
           [1; 0x10; 0; 0; 0; 3; 6; 0; 10; 0; 20; 0; 30; 190; 141]
           [1; 0x10; 0; 0; 0; 3; 128; 8]).
  - in_range_list.
  - apply default_tags_bank.
  - vm_compute. reflexivity.
Defined.

Lemma bank_changes_only_with_write_echo_witness :
  [Num 0; Num 10; Num 20; Num 30; Num 0] = repeat (Num 0) 5
  \/ (nth_error [1; 0x10; 0; 1; 0; 3; 6; 0; 10; 0; 20; 0; 30; 239; 72] 1
      = Some 0x10
      /\ [1; 0x10; 0; 1; 0; 3; 209; 200]
         = with_crc
             (firstn 6 [1; 0x10; 0; 1; 0; 3; 6; 0; 10; 0; 20; 0; 30; 239; 72])).
Proof.
  apply (bank_changes_only_with_write_echo (repeat (Num 0) 5)).
  - in_range_list.
  - vm_compute. reflexivity.
Defined.

Lemma every_response_is_a_checked_frame_witness :
  Forall is_byte [1; 0x03; 4; 0; 0; 0; 0; 250; 51]
  /\ CRC_16 (map Num [1; 0x03; 4; 0; 0; 0; 0; 250; 51]) = Num 0
  /\ (4 <= length [1; 0x03; 4; 0; 0; 0; 0; 250; 51])%nat
  /\ nth_error [1; 0x03; 4; 0; 0; 0; 0; 250; 51] 0 = Some 1
  /\ (nth_error [1; 0x03; 4; 0; 0; 0; 0; 250; 51] 1 = Some 0x03
      \/ nth_error [1; 0x03; 4; 0; 0; 0; 0; 250; 51] 1
         = Some (Z.lor 0x03 0x80)).
Proof.
  apply (every_response_is_a_checked_frame
           (repeat (Num 0) 5) (repeat (Num 0) 5) 1 0x03 [0; 0; 0; 2; 196; 11]).
  - in_range_value.
  - in_range_value.
  - vm_compute. reflexivity.
Defined.

Lemma truncated_read_is_a_checksum_failure_witness :
  handleModbusRequest default_tags (1 :: 0x03 :: [0; 0])
  = Ret (default_tags, exception_response 1 0x03 4).
Proof.
  apply (truncated_read_is_a_checksum_failure default_tags 1 [0; 0]).
  - in_range_value.
  - cbn [length]. lia.
Defined.

Lemma seven_byte_read_is_served_witness :
  handleModbusRequest default_tags
    (read_request 1 33 1 ++ [crc_of (read_request 1 33 1)])
  = handleModbusRequest default_tags (with_crc (read_request 1 33 1)).
Proof.
  apply (seven_byte_read_is_served default_tags 1 33 1).
  - in_range_value.
  - in_range_value.
  - in_range_value.
  - vm_compute. reflexivity.
Defined.

Lemma write_without_byte_count_is_refused_witness :
  handleModbusRequest default_tags
    (with_crc ([1; 0x10] ++ hi_lo 0 ++ hi_lo 1))
  = Ret (default_tags,
         if (999 <? 0) || (999 <? 0 + 1 - 1)
         then exception_response 1 0x10 2
         else exception_response 1 0x10 3).
Proof.
  apply (write_without_byte_count_is_refused default_tags 1 0 1).
  - in_range_value.
  - in_range_value.
  - in_range_value.
Defined.

Lemma read_response_decodes_witness :
  let values := firstn (Z.to_nat 2) (skipn (Z.to_nat 998) (repeat 7 1000)) in
  exists response,
    handle0x03Request (map Num (repeat 7 1000))
                      (with_crc (read_request 1 998 2))
    = Ret (map Num (repeat 7 1000), response)
    /\ parsePDU (annotate (1 :: map (fun _ => 2) values) response)
       = Ret (Some (mkPdu (Num 1) (Num 0x03)
                      (Num (2 * 2) :: map Num values))).
Proof.
  apply (read_response_decodes (repeat 7 1000) 1 998 2).
  - in_range_value.
  - in_range_value.
  - in_range_value.
  - apply Forall_forall. intros x Hx. apply repeat_spec in Hx. subst x.
    in_range_value.
  - apply repeat_length.
  - lia.
  - lia.
  - lia.
Defined.

Lemma later_write_overrides_witness :
  let qty := Z.of_nat (length [10; 20; 30]) in
  let request ws u :=
    with_crc (write_request u 0 qty (qty * 2) (word_bytes ws)) in
  exists tags1 response1,
    handle0x10Request default_tags (request [10; 20; 30] 1)
    = Ret (tags1, response1)
    /\ handle0x10Request tags1 (request [1; 2; 3] 1)
       = handle0x10Request default_tags (request [1; 2; 3] 1).
Proof.
  apply (later_write_overrides default_tags 1 1 0 [10; 20; 30] [1; 2; 3]).
  - in_range_value.
  - in_range_value.
  - in_range_value.
  - in_range_list.
  - in_range_list.
  - reflexivity.
  - reflexivity.
  - lia.
  - cbn [length]. lia.
  - cbn [length]. lia.
Defined.

Lemma toHexString_byte_witness :
  exists c1 c0,
    toHexString 0xAB
    = String.String c1 (String.String c0 String.EmptyString)
    /\ 0 <= hex_value c1 < 16 /\ 0 <= hex_value c0 < 16
    /\ 16 * hex_value c1 + hex_value c0 = 0xAB.
Proof.
  apply (toHexString_byte 0xAB). in_range_value.
Defined.

Lemma dump_determines_frame_witness :
  [1; 0x86; 1; 0x83; 0xA0] = [1; 0x86; 1; 0x83; 0xA0].
Proof.
  apply (dump_determines_frame [1; 0x86; 1; 0x83; 0xA0]
                               [1; 0x86; 1; 0x83; 0xA0]).
  - in_range_list.
  - in_range_list.
  - reflexivity.
Defined.

Lemma tags_file_follows_bank_witness :
  match
    snd (handleModbusRequest_traced (repeat (Num 0) 5)
           [1; 0x10; 0; 1; 0; 3; 6; 0; 10; 0; 20; 0; 30; 239; 72])
  with
  | Throw =>
      saves (fst (handleModbusRequest_traced (repeat (Num 0) 5)
                    [1; 0x10; 0; 1; 0; 3; 6; 0; 10; 0; 20; 0; 30; 239; 72]))
      = []
  | Ret (tags', _) =>
      (saves (fst (handleModbusRequest_traced (repeat (Num 0) 5)
                     [1; 0x10; 0; 1; 0; 3; 6; 0; 10; 0; 20; 0; 30; 239; 72]))
       = []
       /\ tags' = repeat (Num 0) 5)
      \/ saves (fst (handleModbusRequest_traced (repeat (Num 0) 5)
                       [1; 0x10; 0; 1; 0; 3; 6; 0; 10; 0; 20; 0; 30; 239; 72]))
         = [tags']
  end.
Proof.
  apply (tags_file_follows_bank (repeat (Num 0) 5)
           [1; 0x10; 0; 1; 0; 3; 6; 0; 10; 0; 20; 0; 30; 239; 72]).
  apply surjective_pairing.
Defined.

Lemma journal_of_a_request_witness :
  (Js.strict_eq (Js.get [1; 0x03; 0; 0; 0; 2; 196; 11] 1) (Num 0x03) = false ->
   Js.strict_eq (Js.get [1; 0x03; 0; 0; 0; 2; 196; 11] 1) (Num 0x10) = false ->
   fst (handleModbusRequest_traced (repeat (Num 0) 5)
          [1; 0x03; 0; 0; 0; 2; 196; 11]) = [])
  /\ (Js.strict_eq (Js.get [1; 0x03; 0; 0; 0; 2; 196; 11] 1) (Num 0x03) = true
      \/ Js.strict_eq (Js.get [1; 0x03; 0; 0; 0; 2; 196; 11] 1) (Num 0x10)
         = true ->
      framed [1; 0x03; 0; 0; 0; 2; 196; 11]
        (fst (handleModbusRequest_traced (repeat (Num 0) 5)
                [1; 0x03; 0; 0; 0; 2; 196; 11]))
        (snd (handleModbusRequest_traced (repeat (Num 0) 5)
                [1; 0x03; 0; 0; 0; 2; 196; 11]))).
Proof.
  apply (journal_of_a_request (repeat (Num 0) 5)
           [1; 0x03; 0; 0; 0; 2; 196; 11]).
  apply surjective_pairing.
Defined.

Lemma server_keeps_bank_and_file_witness :
  let requests :=
    [ [1; 0x10; 0; 0; 0; 3; 6; 0; 10; 0; 20; 0; 30; 190; 141];
      [2; 0x03; 0; 0; 0; 2; 196; 11];
      [1; 0x03; 0; 0; 0; 2; 196; 11] ] in
  let s' := match serve (Num 1) (boot None) requests with
            | Some s => s
            | None => boot None
            end in
  register_bank (bank s')
  /\ tags_file s' = Some (bank s')
  /\ length (sent s') = length (addressed (Num 1) requests).
Proof.
  apply (server_keeps_bank_and_file (Num 1) None).
  - exact I.
  - repeat (constructor; [in_range_list|]). constructor.
  - vm_compute. reflexivity.
Defined.


Lemma row_label_names_the_shown_registers_witness :
  let tags := map Num [1; 2; 3; 4; 5; 6; 7; 8; 9; 10; 11; 12] in
  let row := body_row tags 1 in
  0 <= startIndex row <= endIndex row
  /\ endIndex row < Z.of_nat (length tags)
  /\ startIndex row mod 10 = 0
  /\ Z.of_nat (length (flat_map shown (cells row)))
     = endIndex row - startIndex row + 1.
Proof.
  apply (row_label_names_the_shown_registers
           (map Num [1; 2; 3; 4; 5; 6; 7; 8; 9; 10; 11; 12])).
  right. left. reflexivity.
Defined.

(** ** A request with its log *)

(** The write of scenario A logs its bytes, saves the new bank and logs
    the echo. *)
Example scenario_A_journal :
  fst (handleModbusRequest_traced (repeat (Num 0) 4)
         [1; 0x10; 0; 0; 0; 3; 6; 0; 10; 0; 20; 0; 30; 190; 141])
  = [ Log "Request: 01 10 00 00 00 03 06 00 0A 00 14 00 1E BE 8D"%string;
      SaveTags [Num 10; Num 20; Num 30; Num 0];
      Log "Response: 01 10 00 00 00 03 80 08"%string ].
Proof. vm_compute. reflexivity. Qed.
